(** * Incubator thermostat sketch: model and checked properties

    A shallow embedding of [Incubator.ino], the Arduino sketch of an
    egg-incubator thermostat, in its two hardware variants (the [Button]
    board and the [Pushbutton] board).  The sketch variables, the EEPROM,
    the relay pin and the answers of the outside world (clock, probe,
    buttons) are explicit; [setup] and [loop] are state transformers over
    them.

    Left out: the LCD and everything that only writes to it
    ([PrintMainMenu], the [UpdateMainMenu...] functions, [PrintSavedSettings],
    [PrintTimeWithInterval] with its [printTimeMillis]), and [delay], which
    only lets the clock advance between two readings. *)

From Stdlib Require Import ZArith Lia Bool List Sorted.
From Stdlib Require Import Floats.SpecFloat.
From stdpp Require Import gmap.

Local Open Scope Z_scope.

(** ** Single-precision arithmetic

    On the AVR both [float] and [double] are IEEE 754 binary32.  The
    operations are those of [SpecFloat] at 24 bits of precision and
    exponent bound 128, which round to nearest, ties to even. *)

Module F32.

Definition prec : Z := 24.
Definition emax : Z := 128.

Definition float : Type := spec_float.

Definition valid (x : float) : bool := valid_binary prec emax x.

Definition add : float -> float -> float := SFadd prec emax.
Definition sub : float -> float -> float := SFsub prec emax.

(** [x < y], [x <= y], [x >= y], [x != y] of C++; all but the last are
    false as soon as an operand is NaN. *)
Definition ltb : float -> float -> bool := SFltb.
Definition leb : float -> float -> bool := SFleb.
Definition geb (x y : float) : bool :=
  match SFcompare x y with
  | Some (Gt | Eq) => true
  | _ => false
  end.
Definition neqb (x y : float) : bool := negb (SFeqb x y).

(** Conversion of an integer to [float] (exact up to 2^24, rounded
    beyond). *)
Definition of_Z (n : Z) : float := binary_normalize prec emax n 0 false.

(** Truncation toward zero of a finite value; infinities and NaN have
    none. *)
Definition trunc (x : float) : option Z :=
  match x with
  | S754_zero _ => Some 0
  | S754_finite s m e =>
      let a := match e with
               | Zneg k => Z.shiftr (Zpos m) (Zpos k)
               | _ => Z.shiftl (Zpos m) e
               end in
      Some (if s then - a else a)
  | _ => None
  end.

(** Conversion [float -> uint8_t] of an argument, as avr-gcc compiles it:
    truncate toward zero through the 32-bit conversion routine and keep
    the low byte.  C++ defines the result only when the truncated value
    lies in 0..255. *)
Definition to_u8 (x : float) : Z :=
  match trunc x with
  | Some n => n mod 256
  | None => 0
  end.

Definition zero : float := S754_zero false.
Definition one : float := of_Z 1.

End F32.

Abbreviation float := F32.float.

(** ** Unsigned 32-bit time stamps *)

Definition wrap32 (n : Z) : Z := n mod 2 ^ 32.
(** [a - b] on [unsigned long]. *)
Definition sub32 (a b : Z) : Z := wrap32 (a - b).

(** ** Constants of the sketch (identical in both variants unless noted) *)

Definition addrInitialized : Z := 0.
Definition addrSetTemp : Z := 1.
Definition eepromInitialized : Z := 101.

Definition readInterval : Z := 5000.
Definition OnOffInterval : Z := 30000.
Definition saveSettingsInterval : Z := 5000.   (* Button board only *)
Definition saveSettingsDelay : Z := 2000.      (* Pushbutton board only *)
Definition tempDifference : float := F32.of_Z 2.
(** [0.3] as a binary32 constant, 0x3E99999A. *)
Definition tempThreshold : float := S754_finite false 10066330 (-25).

(** ** The outside world

    Every call that leaves the sketch is answered by the environment: the
    k-th call of [millis()] finds [clock k] milliseconds elapsed since power
    on, the k-th temperature conversion yields [probe k], and the k-th
    query put to a button object yields [button b k]. *)

Inductive Button := BtnLeft | BtnRight.

Record Env := mkEnv {
  clock : nat -> Z;
  probe : nat -> float;
  button : Button -> nat -> bool
}.

(** One call of [EEPROM.update], as the device sees it: the cell, the byte
    offered, whether the cell was rewritten, and how many clock readings the
    sketch had taken before the call. *)
Record EepromCall := mkCall {
  call_addr : Z;
  call_value : Z;
  call_wrote : bool;
  call_tick : nat
}.

Record World := mkWorld {
  (* variables of the sketch *)
  heaterIsOn : bool;
  setTemp : float;
  currentTemp : float;
  prevTemp : float;
  overShootControlActive : bool;
  readTempMillis : Z;
  heaterOnMillis : Z;
  heaterOffMillis : Z;
  lastSaveSettingsMillis : Z;                  (* Button board only *)
  (* devices *)
  eeprom : gmap Z Z;                           (* cells never written read 255 *)
  journal : list EepromCall;                   (* most recent call first *)
  relayPin : bool;                             (* HEATER_RELAY_PIN, true = HIGH *)
  (* how many answers of each kind were consumed *)
  nMillis : nat;
  nProbe : nat;
  nLeft : nat;
  nRight : nat
}.

Definition set_heaterIsOn (v : bool) (w : World) : World :=
  let '(mkWorld _ b c d e f g h i j k l m n o p) := w in
  mkWorld v b c d e f g h i j k l m n o p.
Definition set_setTemp (v : float) (w : World) : World :=
  let '(mkWorld a _ c d e f g h i j k l m n o p) := w in
  mkWorld a v c d e f g h i j k l m n o p.
Definition set_currentTemp (v : float) (w : World) : World :=
  let '(mkWorld a b _ d e f g h i j k l m n o p) := w in
  mkWorld a b v d e f g h i j k l m n o p.
Definition set_prevTemp (v : float) (w : World) : World :=
  let '(mkWorld a b c _ e f g h i j k l m n o p) := w in
  mkWorld a b c v e f g h i j k l m n o p.
Definition set_overShootControlActive (v : bool) (w : World) : World :=
  let '(mkWorld a b c d _ f g h i j k l m n o p) := w in
  mkWorld a b c d v f g h i j k l m n o p.
Definition set_readTempMillis (v : Z) (w : World) : World :=
  let '(mkWorld a b c d e _ g h i j k l m n o p) := w in
  mkWorld a b c d e v g h i j k l m n o p.
Definition set_heaterOnMillis (v : Z) (w : World) : World :=
  let '(mkWorld a b c d e f _ h i j k l m n o p) := w in
  mkWorld a b c d e f v h i j k l m n o p.
Definition set_heaterOffMillis (v : Z) (w : World) : World :=
  let '(mkWorld a b c d e f g _ i j k l m n o p) := w in
  mkWorld a b c d e f g v i j k l m n o p.
Definition set_lastSaveSettingsMillis (v : Z) (w : World) : World :=
  let '(mkWorld a b c d e f g h _ j k l m n o p) := w in
  mkWorld a b c d e f g h v j k l m n o p.
Definition set_eeprom (v : gmap Z Z) (w : World) : World :=
  let '(mkWorld a b c d e f g h i _ k l m n o p) := w in
  mkWorld a b c d e f g h i v k l m n o p.
Definition set_journal (v : list EepromCall) (w : World) : World :=
  let '(mkWorld a b c d e f g h i j _ l m n o p) := w in
  mkWorld a b c d e f g h i j v l m n o p.
Definition set_relayPin (v : bool) (w : World) : World :=
  let '(mkWorld a b c d e f g h i j k _ m n o p) := w in
  mkWorld a b c d e f g h i j k v m n o p.
Definition set_nMillis (v : nat) (w : World) : World :=
  let '(mkWorld a b c d e f g h i j k l _ n o p) := w in
  mkWorld a b c d e f g h i j k l v n o p.
Definition set_nProbe (v : nat) (w : World) : World :=
  let '(mkWorld a b c d e f g h i j k l m _ o p) := w in
  mkWorld a b c d e f g h i j k l m v o p.
Definition set_nLeft (v : nat) (w : World) : World :=
  let '(mkWorld a b c d e f g h i j k l m n _ p) := w in
  mkWorld a b c d e f g h i j k l m n v p.
Definition set_nRight (v : nat) (w : World) : World :=
  let '(mkWorld a b c d e f g h i j k l m n o _) := w in
  mkWorld a b c d e f g h i j k l m n o v.

(** Power on: the globals take their initialisers (zero where the sketch
    gives none), the port register is cleared, the EEPROM keeps its cells. *)
Definition power_on (cells : gmap Z Z) : World :=
  {| heaterIsOn := false;
     setTemp := F32.of_Z 22;
     currentTemp := F32.zero;
     prevTemp := F32.zero;
     overShootControlActive := false;
     readTempMillis := 0;
     heaterOnMillis := 0;
     heaterOffMillis := 0;
     lastSaveSettingsMillis := 0;
     eeprom := cells;
     journal := [];
     relayPin := false;
     nMillis := 0;
     nProbe := 0;
     nLeft := 0;
     nRight := 0 |}.

(** ** Statements as state transformers *)

Definition M (A : Type) : Type := World -> A * World.

Definition ret {A} (a : A) : M A := fun w => (a, w).
Definition bind {A B} (m : M A) (k : A -> M B) : M B :=
  fun w => let (a, w') := m w in k a w'.
Definition get : M World := fun w => (w, w).
Definition modify (f : World -> World) : M unit := fun w => (tt, f w).
Definition exec {A} (m : M A) (w : World) : World := snd (m w).
Definition eval {A} (m : M A) (w : World) : A := fst (m w).

Declare Scope sketch_scope.
Delimit Scope sketch_scope with sketch.
Notation "'let*' x := m 'in' k" := (bind m (fun x => k))
  (at level 10, x name, m at level 100, k at level 200) : sketch_scope.
Notation "m ;; k" := (bind m (fun _ => k))
  (at level 100, k at level 200, right associativity) : sketch_scope.
Local Open Scope sketch_scope.

Inductive HeaterState := Off | On.

Definition heaterState (w : World) : HeaterState :=
  if heaterIsOn w then On else Off.

Section Sketch.

Variable env : Env.

(** *** Library calls *)

Definition millis : M Z := fun w =>
  (wrap32 (clock env (nMillis w)), set_nMillis (S (nMillis w)) w).

(** [sensors.requestTemperatures(); sensors.getTempCByIndex(0)] *)
Definition readProbe : M float := fun w =>
  (probe env (nProbe w), set_nProbe (S (nProbe w)) w).

(** Any query of a button object: [pressed()] on the Button board,
    [getSingleDebouncedRelease()] and [isPressed()] on the Pushbutton
    board. *)
Definition query (b : Button) : M bool := fun w =>
  match b with
  | BtnLeft => (button env BtnLeft (nLeft w), set_nLeft (S (nLeft w)) w)
  | BtnRight => (button env BtnRight (nRight w), set_nRight (S (nRight w)) w)
  end.

Definition EEPROM_read (cells : gmap Z Z) (a : Z) : Z :=
  default 255 (cells !! a).

(** [EEPROM.update(a, v)] rewrites the cell only when it holds another
    byte. *)
Definition EEPROM_update (a v : Z) : M unit := fun w =>
  let differs := negb (EEPROM_read (eeprom w) a =? v) in
  let w1 := set_journal (mkCall a v differs (nMillis w) :: journal w) w in
  (tt, if differs then set_eeprom (<[a := v]> (eeprom w)) w1 else w1).

Definition digitalWrite_relay (level : bool) : M unit :=
  modify (set_relayPin level).

(** *** Functions shared by the two variants *)

Definition readTemperatureWithInterval : M bool :=
  let* now := millis in
  let* w := get in
  if sub32 now (readTempMillis w) <? readInterval then ret false
  else
    let* t := readProbe in
    modify (set_currentTemp t);;
    let* now' := millis in
    modify (set_readTempMillis now');;
    ret true.

Definition turnHeaterOn : M unit :=
  modify (set_heaterIsOn true);;
  digitalWrite_relay true;;
  let* now := millis in
  modify (set_heaterOnMillis now).

Definition turnHeaterOff : M unit :=
  modify (set_heaterIsOn false);;
  digitalWrite_relay false;;
  let* now := millis in
  modify (set_heaterOffMillis now).

(** [setTemp--] and [setTemp++] *)
Definition setTemp_decr : M unit :=
  modify (fun w => set_setTemp (F32.sub (setTemp w) F32.one) w).
Definition setTemp_incr : M unit :=
  modify (fun w => set_setTemp (F32.add (setTemp w) F32.one) w).

(** The sampling statement of [loop]. *)
Definition sampleTemperature : M unit :=
  let* fresh := readTemperatureWithInterval in
  let* w := get in
  if fresh && F32.neqb (prevTemp w) (currentTemp w)
  then modify (set_prevTemp (currentTemp w))
  else ret tt.

(** The heater statement of [loop], from the assignment of
    [overShootControlActive] to the last [else if].  [&&] and [||]
    evaluate left to right and stop early, so [millis()] is read only
    where the C++ reads it. *)
Definition heaterControl : M unit :=
  let* w0 := get in
  let guard :=
    F32.leb (F32.sub (setTemp w0) (currentTemp w0)) tempDifference in
  modify (set_overShootControlActive guard);;
  if guard then
    let* turnOn :=
      if F32.ltb (F32.add (currentTemp w0) tempThreshold) (setTemp w0)
         && negb (heaterIsOn w0)
      then let* now := millis in
           ret (sub32 now (heaterOffMillis w0) >? OnOffInterval)
      else ret false in
    if turnOn then turnHeaterOn
    else
      let* turnOff :=
        if heaterIsOn w0 then
          if F32.geb (currentTemp w0) (setTemp w0) then ret true
          else let* now := millis in
               ret (sub32 now (heaterOnMillis w0) >? OnOffInterval)
        else ret false in
      if turnOff then turnHeaterOff else ret tt
  else if F32.ltb (currentTemp w0) (setTemp w0) && negb (heaterIsOn w0)
  then turnHeaterOn
  else ret tt.

(** The EEPROM statements of [setup], given the variant's
    [SaveSettings]. *)
Definition loadSettings (SaveSettings : M unit) : M unit :=
  let* w := get in
  (if negb (EEPROM_read (eeprom w) addrInitialized =? eepromInitialized)
   then EEPROM_update addrInitialized eepromInitialized;; SaveSettings
   else ret tt);;
  modify (fun w => set_setTemp (F32.of_Z (EEPROM_read (eeprom w) addrSetTemp)) w).

End Sketch.

(** ** First variant: the Button board *)

Module V1.
Section V1.

Variable env : Env.

Definition SaveSettings : M unit :=
  let* w := get in
  EEPROM_update addrSetTemp (F32.to_u8 (setTemp w));;
  let* now := millis env in
  modify (set_lastSaveSettingsMillis now).

Definition setup : M unit :=
  loadSettings SaveSettings;;
  let* t := readProbe env in
  modify (set_currentTemp t).

(** The button statement of [loop]. *)
Definition buttons : M unit :=
  let* save :=
    let* l := query env BtnLeft in
    if l then
      let* r := query env BtnRight in
      if r then
        let* now := millis env in
        let* w := get in
        ret (sub32 now (lastSaveSettingsMillis w) >? saveSettingsInterval)
      else ret false
    else ret false in
  if save then SaveSettings
  else
    let* l := query env BtnLeft in
    if l then setTemp_decr
    else
      let* r := query env BtnRight in
      if r then setTemp_incr else ret tt.

Definition loop : M unit :=
  buttons;;
  sampleTemperature env;;
  heaterControl env.

End V1.
End V1.

(** ** Second variant: the Pushbutton board *)

Module V2.
Section V2.

Variable env : Env.

Definition SaveSettings : M unit :=
  let* w := get in
  EEPROM_update addrSetTemp (F32.to_u8 (setTemp w)).

Definition setup : M unit :=
  loadSettings SaveSettings;;
  let* t := readProbe env in
  modify (set_currentTemp t).

(** The [while] of the combined hold, entered with the hold start [t].
    It leaves when a button is let go or when the hold has lasted; the
    fuel bounds the number of turns. *)
Fixpoint hold (fuel : nat) (t : Z) (w : World) : option World :=
  match fuel with
  | O => None
  | S fuel' =>
      let (l, w1) := query env BtnLeft w in
      if l then
        let (r, w2) := query env BtnRight w1 in
        if r then
          let (now, w3) := millis env w2 in
          if sub32 now t >? saveSettingsDelay
          then Some (exec SaveSettings w3)
          else hold fuel' t w3
        else Some w2
      else Some w1
  end.

(** The button statement of [loop]. *)
Definition buttons (fuel : nat) (w : World) : option World :=
  let (l, w1) := query env BtnLeft w in
  if l then Some (exec setTemp_decr w1)
  else
    let (r, w2) := query env BtnRight w1 in
    if r then Some (exec setTemp_incr w2)
    else
      let (l', w3) := query env BtnLeft w2 in
      if l' then
        let (r', w4) := query env BtnRight w3 in
        if r' then
          let (t, w5) := millis env w4 in
          hold fuel t w5
        else Some w4
      else Some w3.

Definition loop (fuel : nat) (w : World) : option World :=
  match buttons fuel w with
  | Some w1 => Some (exec (sampleTemperature env;; heaterControl env) w1)
  | None => None
  end.

End V2.
End V2.

(** ** The heater decision as the specification words it

    Section 4.4: the overshoot guard, the two gated transitions near the
    setpoint, the ungated turn-on far below it, and "hold" otherwise.  Time
    differences are taken on the millisecond counter, as [unsigned long]. *)

Module Spec.
Section Decision.

Variables (hysteresisBand turnOnThreshold : float) (minDwellInterval : Z).
Variables (currentTemp setpoint : float) (heaterState : HeaterState).
Variables (lastOnAt lastOffAt now : Z).

Definition isOff : bool := match heaterState with Off => true | On => false end.
Definition isOn : bool := match heaterState with On => true | Off => false end.

Definition overshootGuardActive : bool :=
  F32.leb (F32.sub setpoint currentTemp) hysteresisBand.

Definition turnOnNear : bool :=
  isOff
  && F32.ltb (F32.add currentTemp turnOnThreshold) setpoint
  && (sub32 now lastOffAt >? minDwellInterval).

Definition turnOffNear : bool :=
  isOn
  && (F32.geb currentTemp setpoint || (sub32 now lastOnAt >? minDwellInterval)).

Definition turnOnFar : bool :=
  isOff && F32.ltb currentTemp setpoint.

Definition decide : HeaterState :=
  if overshootGuardActive then
    if turnOnNear then On
    else if turnOffNear then Off
    else heaterState
  else
    if turnOnFar then On else heaterState.

End Decision.
End Spec.

(** * Auxiliary definitions

    Predicates, invariants and sample worlds the properties are stated
    with. *)

(** ** Clock readings *)

(** The clock reading a statement started in [w] gets from its first call
    of [millis()]. *)
Definition nextMillis (env : Env) (w : World) : Z :=
  wrap32 (clock env (nMillis w)).

(** The clock never runs backwards and starts at or after zero. *)
Definition monotoneClock (env : Env) : Prop :=
  0 <= clock env 0 /\
  forall i j : nat, (i <= j)%nat -> clock env i <= clock env j.

(** ** Sample temperatures, worlds and environments *)

(** 19 degrees *)
Definition f19 : float := F32.of_Z 19.
(** 21 degrees *)
Definition f21 : float := F32.of_Z 21.
(** 22 degrees *)
Definition f22 : float := F32.of_Z 22.
(** 22.5 degrees *)
Definition f22_5 : float := S754_finite false 11796480 (-19).
(** -1 degree *)
Definition fminus1 : float := F32.of_Z (-1).
(** 21.8 degrees, rounded to binary32 (0x41AE6666) *)
Definition f21_8 : float := S754_finite false 11429478 (-19).
(** 2^24 degrees, the first whole number whose successor is not a binary32
    number *)
Definition f2p24 : float := F32.of_Z 16777216.

(** A world that differs from a freshly powered one only in the sketch
    variables the heater statement reads. *)
Definition heaterWorld (on : bool) (set cur : float) (lastOn lastOff : Z) : World :=
  set_heaterOnMillis lastOn (set_heaterOffMillis lastOff
    (set_currentTemp cur (set_setTemp set
      (set_relayPin on (set_heaterIsOn on (power_on ∅)))))).

(** An environment whose clock always reads [t]. *)
Definition frozenAt (t : Z) : Env :=
  {| clock := fun _ => t; probe := fun _ => F32.zero; button := fun _ _ => false |}.

(** A cold room: the probe reads 19 degrees, nobody touches the buttons,
    the clock advances one second per reading. *)
Definition coldRoom : Env :=
  {| clock := fun k => 1000 * Z.of_nat k;
     probe := fun _ => f19;
     button := fun _ _ => false |}.

(** Both buttons answer "pressed" to every query, and the clock advances
    three seconds per reading. *)
Definition bothHeld : Env :=
  {| clock := fun k => 3000 * Z.of_nat k;
     probe := fun _ => f19;
     button := fun _ _ => true |}.

(** Nobody touches a button for the first query of each, then both are
    held down; the clock advances three seconds per reading. *)
Definition heldLater : Env :=
  {| clock := fun k => 3000 * Z.of_nat k;
     probe := fun _ => f19;
     button := fun _ k => (1 <=? k)%nat |}.

(** ** Runs *)

(** The states a run of the sketch passes through after power-on: the end
    of [setup], then the end of each [loop]. *)
Inductive reachable_V1 (env : Env) : World -> Prop :=
| V1_booted cells : reachable_V1 env (exec (V1.setup env) (power_on cells))
| V1_looped w : reachable_V1 env w -> reachable_V1 env (exec (V1.loop env) w).

Inductive reachable_V2 (env : Env) : World -> Prop :=
| V2_booted cells : reachable_V2 env (exec (V2.setup env) (power_on cells))
| V2_looped w fuel w' :
    reachable_V2 env w -> V2.loop env fuel w = Some w' -> reachable_V2 env w'.

(** The Button board after [setup] and [n] turns of [loop]. *)
Definition run_V1 (env : Env) (cells : gmap Z Z) (n : nat) : World :=
  Nat.iter n (exec (V1.loop env)) (exec (V1.setup env) (power_on cells)).

Definition preserves {A} (P : World -> Prop) (m : M A) : Prop :=
  forall w, P w -> P (exec m w).

(** ** The settings in the EEPROM *)

(** The sentinel is in place. *)
Definition initialized (w : World) : Prop :=
  EEPROM_read (eeprom w) addrInitialized = eepromInitialized.

(** What [setup] leaves when it found no sentinel in [cells]: the sentinel
    and the byte 22 stored by two calls of [EEPROM.update], the other cells
    as they were, 22.0 in [setTemp]. *)
Definition firstBootOutcome (cells : gmap Z Z) (w : World) : Prop :=
  initialized w /\
  EEPROM_read (eeprom w) addrSetTemp = 22 /\
  (forall a, a <> addrInitialized -> a <> addrSetTemp ->
             EEPROM_read (eeprom w) a = EEPROM_read cells a) /\
  map (fun c => (call_addr c, call_value c)) (journal w)
    = [(addrSetTemp, 22); (addrInitialized, eepromInitialized)] /\
  setTemp w = F32.of_Z 22.

(** What [setup] leaves when it found the sentinel in [cells]: no call of
    [EEPROM.update], the cells as they were, the byte at offset 1 in
    [setTemp]. *)
Definition laterBootOutcome (cells : gmap Z Z) (w : World) : Prop :=
  eeprom w = cells /\
  journal w = [] /\
  setTemp w = F32.of_Z (EEPROM_read cells addrSetTemp).

(** [save] stores the low byte of the truncated setpoint at [addrSetTemp]
    by one call of [EEPROM.update] and keeps the other cells and
    [setTemp]. *)
Definition savesSetpoint (save : M unit) : Prop :=
  forall w,
    EEPROM_read (eeprom (exec save w)) addrSetTemp = F32.to_u8 (setTemp w) /\
    (forall a, a <> addrSetTemp ->
       EEPROM_read (eeprom (exec save w)) a = EEPROM_read (eeprom w) a) /\
    setTemp (exec save w) = setTemp w /\
    map (fun c => (call_addr c, call_value c)) (journal (exec save w))
      = (addrSetTemp, F32.to_u8 (setTemp w))
          :: map (fun c => (call_addr c, call_value c)) (journal w).

(** The setpoint found after the next power-on, by either variant's
    [setup], when the device is switched off in world [w]. *)
Definition restored_V1 (env : Env) (w : World) : float :=
  setTemp (exec (V1.setup env) (power_on (eeprom w))).
Definition restored_V2 (env : Env) (w : World) : float :=
  setTemp (exec (V2.setup env) (power_on (eeprom w))).

(** The byte of the setpoint is already in its cell. *)
Definition savedAlready (w : World) : Prop :=
  EEPROM_read (eeprom w) addrSetTemp = F32.to_u8 (setTemp w).

(** From [w] to [w'] no cell changed, and the last call of
    [EEPROM.update] rewrote nothing. *)
Definition notRewritten (w w' : World) : Prop :=
  eeprom w' = eeprom w /\
  option_map call_wrote (head (journal w')) = Some false.

(** ** The relay *)

(** The relay follows the flag. *)
Definition relayConsistent (w : World) : Prop := relayPin w = heaterIsOn w.

(** What an assignment must leave alone to keep the relay and the flag as
    they are. *)
Definition keepsHeater (f : World -> World) : Prop :=
  forall w, heaterIsOn (f w) = heaterIsOn w /\ relayPin (f w) = relayPin w.

(** ** The spacing of saves *)

(** A call that offers the setpoint cell a byte is a save. *)
Definition isSave (c : EepromCall) : Prop := call_addr c = addrSetTemp.

(** Two saves are spaced when the clock reading taken just before the later
    one exceeds the reading taken just after the earlier one by more than
    [saveSettingsInterval]. *)
Definition spaced (env : Env) (later earlier : EepromCall) : Prop :=
  isSave later -> isSave earlier ->
  saveSettingsInterval
    < clock env (call_tick later - 1) - clock env (call_tick earlier).

(** Every call of the journal (most recent first) is spaced from all the
    calls before it. *)
Definition savesSpaced (env : Env) (calls : list EepromCall) : Prop :=
  StronglySorted (spaced env) calls.

(** The combined press with the interval elapsed, as [loop] tests it in
    world [w]. *)
Definition saveGesture (env : Env) (w : World) : bool :=
  button env BtnLeft (nLeft w)
  && button env BtnRight (nRight w)
  && (sub32 (nextMillis env w) (lastSaveSettingsMillis w) >? saveSettingsInterval).

(** The invariant behind the spacing: [lastSaveSettingsMillis] holds, modulo
    2^32, a clock value [S] not in the future and not before the reading
    that followed any save so far. *)
Definition saveInv (env : Env) (w : World) : Prop :=
  savesSpaced env (journal w) /\
  exists S : Z,
    lastSaveSettingsMillis w = wrap32 S /\
    0 <= S <= clock env (nMillis w) /\
    Forall (fun c => isSave c -> clock env (call_tick c) <= S) (journal w).

(** What an assignment must leave alone to keep [saveInv]. *)
Definition keepsSave (f : World -> World) : Prop :=
  forall w, journal (f w) = journal w /\
            lastSaveSettingsMillis (f w) = lastSaveSettingsMillis w /\
            nMillis (f w) = nMillis w.

(** ** Whole numbers and probe readings as binary32 numbers *)

(** [q] shifted left by [j] bits. *)
Definition shiftN (j : nat) (q : positive) : positive := Nat.iter j xO q.

(** The number of bits of [q]. *)
Definition digits (q : positive) : Z := Zpos (digits2_pos q).

(** The binary32 form of [q * 2^c] for a whole number [q] below 2^24: the
    mantissa filled to 24 bits, the exponent lowered by as much. *)
Definition canonAt (c : Z) (s : bool) (q : positive) : float :=
  S754_finite s (shiftN (Z.to_nat (24 - digits q)) q) (digits q - 24 + c).

Definition signed (s : bool) (q : positive) : Z := if s then Zneg q else Zpos q.

(** [z * 2^c] as a binary32 number. *)
Definition dyadic (c : Z) (z : Z) : float :=
  binary_normalize F32.prec F32.emax z c false.

(** A reading on the grid of the DS18B20 probe: [k] steps of 1/128
    degree. *)
Definition probeGrid (k : Z) : float := dyadic (-7) k.

(** * Further definitions: runs from given cells, setpoint and EEPROM
    invariants *)

(** The states of a run that was powered on with the EEPROM holding
    [cells]. *)
Inductive runs_V1 (env : Env) (cells : gmap Z Z) : World -> Prop :=
| runs_V1_boot : runs_V1 env cells (exec (V1.setup env) (power_on cells))
| runs_V1_loop w :
    runs_V1 env cells w -> runs_V1 env cells (exec (V1.loop env) w).

Inductive runs_V2 (env : Env) (cells : gmap Z Z) : World -> Prop :=
| runs_V2_boot : runs_V2 env cells (exec (V2.setup env) (power_on cells))
| runs_V2_loop w fuel w' :
    runs_V2 env cells w -> V2.loop env fuel w = Some w' -> runs_V2 env cells w'.

(** Every cell reads a byte, as on the device. *)
Definition byteCells (cells : gmap Z Z) : Prop :=
  forall a, 0 <= EEPROM_read cells a <= 255.

(** The setpoint is a whole number of degrees, at most 2^24 in magnitude. *)
Definition wholeSetpoint (w : World) : Prop :=
  exists n : Z, - 2 ^ 24 <= n <= 2 ^ 24 /\ setTemp w = F32.of_Z n.

(** A call the sketch may make: the sentinel to its cell, or a byte to the
    setpoint cell. *)
Definition sketchCall (c : EepromCall) : Prop :=
  (call_addr c = addrInitialized /\ call_value c = eepromInitialized) \/
  (call_addr c = addrSetTemp /\ 0 <= call_value c <= 255).

(** With respect to the cells found at power-on: only the first two cells
    may differ, every cell still reads a byte, and the journal holds calls
    of the two kinds only. *)
Definition eepromInv (cells : gmap Z Z) (w : World) : Prop :=
  (forall a, a <> addrInitialized -> a <> addrSetTemp ->
             EEPROM_read (eeprom w) a = EEPROM_read cells a) /\
  byteCells (eeprom w) /\
  Forall sketchCall (journal w).

(** One step of the setpoint, or none. *)
Definition oneStep (s s' : float) : Prop :=
  s' = s \/ s' = F32.sub s F32.one \/ s' = F32.add s F32.one.

(** What a pass of the Pushbutton board's [loop] that saved has seen and
    done, from the world [w] it started in to [w']: no release was reported,
    both buttons read pressed at the [else if] and at each of the [j + 1]
    turns of the [while]; the clock reading of turn [j] was the first to be
    more than [saveSettingsDelay] after the reading [t] taken before the
    [while]; and the one call of [EEPROM.update] offered the byte of the
    setpoint to [addrSetTemp] right after that reading. *)
Definition savedAfterHold (env : Env) (w w' : World) : Prop :=
  exists j : nat,
    button env BtnLeft (nLeft w) = false /\
    button env BtnRight (nRight w) = false /\
    (forall i, (i <= S j)%nat ->
       button env BtnLeft (nLeft w + 1 + i) = true /\
       button env BtnRight (nRight w + 1 + i) = true) /\
    (forall i, (i < j)%nat ->
       sub32 (wrap32 (clock env (nMillis w + 1 + i)))
             (wrap32 (clock env (nMillis w))) <= saveSettingsDelay) /\
    sub32 (wrap32 (clock env (nMillis w + 1 + j)))
          (wrap32 (clock env (nMillis w))) > saveSettingsDelay /\
    journal w' =
      mkCall addrSetTemp (F32.to_u8 (setTemp w))
        (negb (EEPROM_read (eeprom w) addrSetTemp =? F32.to_u8 (setTemp w)))
        (nMillis w + 2 + j)
      :: journal w.

(** Turn [j] of the [while] of the combined hold, counted from the world
    [w] in which [loop] starts, is one that leaves it: a button reads
    released there, or the clock reading of that turn is more than
    [saveSettingsDelay] after the reading taken before the [while]. *)
Definition holdEndsAt (env : Env) (w : World) (j : nat) : Prop :=
  button env BtnLeft (nLeft w + 2 + j) = false \/
  button env BtnRight (nRight w + 2 + j) = false \/
  sub32 (wrap32 (clock env (nMillis w + 1 + j)))
        (wrap32 (clock env (nMillis w))) > saveSettingsDelay.

(** Nobody touches a button: every query of either one reads "not
    pressed". *)
Definition untouched (env : Env) : Prop := forall b k, button env b k = false.

(** Every reading of the probe is below the setpoint [s] and outside the
    overshoot guard: [s - reading <= tempDifference] is false. *)
Definition staysFarBelow (env : Env) (s : float) : Prop :=
  forall k,
    F32.leb (F32.sub s (probe env k)) tempDifference = false /\
    F32.ltb (probe env k) s = true.

(** The temperature in [currentTemp] is one the probe has given. *)
Definition holdsReading (env : Env) (w : World) : Prop :=
  exists k, currentTemp w = probe env k.

(** An answer of the probe library when no probe answers: -127 degrees. *)
Definition fDisconnected : float := F32.of_Z (-127).

(** [x] is the binary32 number [v / 2^31]: zero, or a number with a full
    mantissa. *)
Definition hasValue (x : float) (v : Z) : Prop :=
  (v = 0 /\ exists s, x = S754_zero s) \/
  (exists s m e, x = S754_finite s m e /\ digits m = 24 /\ -31 <= e /\
                 v = signed s m * 2 ^ (e + 31)).

(** Every answer of the probe is a 16-bit count of steps of 1/128 degree,
    as the probe library gives it (-127 degrees, its answer when no probe
    is there, is one of them). *)
Definition gridProbe (env : Env) : Prop :=
  forall i, exists k, -32768 <= k <= 32767 /\ probe env i = probeGrid k.

(** * Properties *)

(** ** Running the statements *)

Ltac run :=
  cbv beta delta
    [exec eval bind ret get modify millis readProbe query
     EEPROM_update digitalWrite_relay readTemperatureWithInterval
     turnHeaterOn turnHeaterOff setTemp_decr setTemp_incr
     sampleTemperature heaterControl loadSettings
     V1.SaveSettings V1.setup V1.buttons V1.loop
     V2.SaveSettings V2.setup] in *.

Ltac fields :=
  cbn [heaterIsOn setTemp currentTemp prevTemp overShootControlActive
       readTempMillis heaterOnMillis heaterOffMillis lastSaveSettingsMillis
       eeprom journal relayPin nMillis nProbe nLeft nRight
       set_heaterIsOn set_setTemp set_currentTemp set_prevTemp
       set_overShootControlActive set_readTempMillis set_heaterOnMillis
       set_heaterOffMillis set_lastSaveSettingsMillis set_eeprom set_journal
       set_relayPin set_nMillis set_nProbe set_nLeft set_nRight
       fst snd negb andb orb] in *.

Lemma sub32_no_wrap a b :
  0 <= b <= a -> a < 2 ^ 32 -> sub32 a b = a - b.
Proof.
  intros Hb Ha. unfold sub32, wrap32. apply Z.mod_small. lia.
Qed.

Lemma sub32_range a b : 0 <= sub32 a b < 2 ^ 32.
Proof. unfold sub32, wrap32. apply Z.mod_pos_bound. lia. Qed.

(** ** Whole degrees and probe readings in binary32 *)

Lemma digits_pos q : 1 <= digits q.
Proof. unfold digits. lia. Qed.

Lemma digits_shiftN j q : digits (shiftN j q) = digits q + Z.of_nat j.
Proof.
  unfold digits. induction j as [| j IH].
  - cbn. lia.
  - unfold shiftN in *. rewrite Nat.iter_succ. cbn [digits2_pos].
    rewrite Pos2Z.inj_succ, IH. lia.
Qed.

(** [q] has exactly [digits q] bits. *)
Lemma digits_spec q : 2 ^ (digits q - 1) <= Zpos q < 2 ^ digits q.
Proof.
  unfold digits. induction q as [p IH | p IH |]; cbn [digits2_pos].
  - rewrite Pos2Z.inj_succ. replace (Z.succ (Zpos (digits2_pos p)) - 1)
      with (Z.succ (Zpos (digits2_pos p) - 1)) by lia.
    rewrite !Z.pow_succ_r by lia. lia.
  - rewrite Pos2Z.inj_succ. replace (Z.succ (Zpos (digits2_pos p)) - 1)
      with (Z.succ (Zpos (digits2_pos p) - 1)) by lia.
    rewrite !Z.pow_succ_r by lia. lia.
  - cbn. lia.
Qed.

Lemma digits_bound q : Zpos q < 2 ^ 24 -> digits q <= 24.
Proof.
  intros H. pose proof (digits_spec q) as [Hlo _]. pose proof (digits_pos q).
  destruct (Z.le_gt_cases (digits q) 24) as [Hd | Hd]; [exact Hd |].
  assert (2 ^ 24 <= 2 ^ (digits q - 1)) by (apply Z.pow_le_mono_r; lia).
  lia.
Qed.

Lemma Zpos_shiftN j q : Zpos (shiftN j q) = Zpos q * 2 ^ Z.of_nat j.
Proof.
  induction j as [| j IH].
  - cbn. lia.
  - unfold shiftN in *. rewrite Nat.iter_succ.
    rewrite Pos2Z.inj_xO, IH, Nat2Z.inj_succ, Z.pow_succ_r by lia. lia.
Qed.

Lemma shiftN_add i j q : shiftN i (shiftN j q) = shiftN (i + j) q.
Proof. unfold shiftN. symmetry. apply Nat.iter_add. Qed.

Lemma Pos_iter_shiftN d m : Pos.iter xO m d = shiftN (Pos.to_nat d) m.
Proof. unfold shiftN. apply Pos2Nat.inj_iter. Qed.

Lemma iter_pos_nat {A} (f : A -> A) p x :
  SpecFloat.iter_pos f p x = Nat.iter (Pos.to_nat p) f x.
Proof.
  revert x. induction p as [p IH | p IH |]; intros x; cbn [SpecFloat.iter_pos].
  - rewrite !IH, Pos2Nat.inj_xI, <- Nat.iter_add.
    replace (S (2 * Pos.to_nat p)) with (Pos.to_nat p + Pos.to_nat p + 1)%nat by lia.
    rewrite <- (Nat.iter_add _ 1). reflexivity.
  - rewrite !IH, Pos2Nat.inj_xO, <- Nat.iter_add. f_equal. lia.
  - reflexivity.
Qed.

Lemma shr_exact n : forall y,
  Nat.iter n shr_1 (Build_shr_record (Zpos (shiftN n y)) false false)
  = Build_shr_record (Zpos y) false false.
Proof.
  induction n as [| n IH]; intros y; [reflexivity |].
  replace (shiftN (S n) y) with (shiftN n (y~0))
    by (unfold shiftN; symmetry; apply Nat.iter_succ_r).
  rewrite Nat.iter_succ, IH. reflexivity.
Qed.

Lemma fexp_normal e : -125 <= e -> fexp F32.prec F32.emax e = e - 24.
Proof. intros H. unfold fexp, emin, F32.prec, F32.emax. lia. Qed.

Lemma shr_fexp_normal x e :
  digits x = 24 -> -149 <= e ->
  shr_fexp F32.prec F32.emax (Zpos x) e loc_Exact
  = (Build_shr_record (Zpos x) false false, e).
Proof.
  intros Hx He. unfold digits in Hx.
  unfold shr_fexp. cbn [Zdigits2 shr_record_of_loc].
  rewrite Hx, fexp_normal by lia.
  replace (24 + e - 24 - e) with 0 by lia. reflexivity.
Qed.

Lemma shr_fexp_shifted y (d : positive) e :
  digits y = 24 -> -149 <= e + Zpos d ->
  shr_fexp F32.prec F32.emax (Zpos (shiftN (Pos.to_nat d) y)) e loc_Exact
  = (Build_shr_record (Zpos y) false false, e + Zpos d).
Proof.
  intros Hy He.
  pose proof (digits_shiftN (Pos.to_nat d) y) as Hd.
  rewrite positive_nat_Z, Hy in Hd. unfold digits in Hd.
  unfold shr_fexp. cbn [Zdigits2 shr_record_of_loc].
  rewrite Hd, fexp_normal by lia.
  replace (24 + Zpos d + e - 24 - e) with (Zpos d) by lia.
  cbn [shr]. rewrite iter_pos_nat, shr_exact. reflexivity.
Qed.

Lemma round_aux_normal s x e :
  digits x = 24 -> -149 <= e <= 104 ->
  binary_round_aux F32.prec F32.emax s (Zpos x) e loc_Exact = S754_finite s x e.
Proof.
  intros Hx He. unfold binary_round_aux.
  rewrite shr_fexp_normal by (auto; lia).
  cbn [shr_m loc_of_shr_record round_nearest_even].
  rewrite shr_fexp_normal by (auto; lia). cbn [shr_m].
  replace (e <=? F32.emax - F32.prec) with true; [reflexivity |].
  symmetry. apply Z.leb_le. unfold F32.emax, F32.prec. lia.
Qed.

Lemma round_aux_shifted s y (d : positive) e :
  digits y = 24 -> -149 <= e + Zpos d <= 104 ->
  binary_round_aux F32.prec F32.emax s (Zpos (shiftN (Pos.to_nat d) y)) e loc_Exact
  = S754_finite s y (e + Zpos d).
Proof.
  intros Hy He. unfold binary_round_aux.
  rewrite shr_fexp_shifted by (auto; lia).
  cbn [shr_m loc_of_shr_record round_nearest_even].
  rewrite shr_fexp_normal by (auto; lia). cbn [shr_m].
  replace (e + Zpos d <=? F32.emax - F32.prec) with true; [reflexivity |].
  symmetry. apply Z.leb_le. unfold F32.emax, F32.prec. lia.
Qed.

(** Rounding [q * 2^j] at exponent [c - j] gives the binary32 form of
    [q * 2^c]. *)
Lemma round_scaled c s q (j : nat) :
  digits q <= 24 -> -100 <= c <= 100 ->
  binary_round F32.prec F32.emax s (shiftN j q) (c - Z.of_nat j) = canonAt c s q.
Proof.
  intros Hq Hc. pose proof (digits_pos q) as Hq1.
  unfold binary_round, canonAt.
  pose proof (digits_shiftN j q) as Hd. unfold digits in Hd.
  rewrite Hd. fold (digits q).
  rewrite fexp_normal by lia.
  replace (digits q + Z.of_nat j + (c - Z.of_nat j) - 24) with (digits q - 24 + c) by lia.
  unfold shl_align.
  destruct (digits q - 24 + c - (c - Z.of_nat j)) as [| d | d] eqn:Hshift.
  - rewrite round_aux_normal.
    + f_equal; [| lia]. f_equal. lia.
    + rewrite digits_shiftN. lia.
    + lia.
  - replace (shiftN j q) with
      (shiftN (Pos.to_nat d) (shiftN (Z.to_nat (24 - digits q)) q)).
    + rewrite round_aux_shifted.
      * f_equal. lia.
      * rewrite digits_shiftN. lia.
      * lia.
    + rewrite shiftN_add. f_equal. lia.
  - rewrite Pos_iter_shiftN, shiftN_add.
    replace (Pos.to_nat d + j)%nat with (Z.to_nat (24 - digits q)) by lia.
    apply round_aux_normal.
    + rewrite digits_shiftN. lia.
    + lia.
Qed.

Lemma dyadic_signed c s q :
  Zpos q < 2 ^ 24 -> -100 <= c <= 100 ->
  dyadic c (signed s q) = canonAt c s q.
Proof.
  intros H Hc. apply digits_bound in H.
  pose proof (round_scaled c s q 0 H Hc) as Hr.
  replace (c - Z.of_nat 0) with c in Hr by lia.
  destruct s; exact Hr.
Qed.

Lemma dyadic_pos c q :
  Zpos q < 2 ^ 24 -> -100 <= c <= 100 -> dyadic c (Zpos q) = canonAt c false q.
Proof. apply (dyadic_signed c false q). Qed.

Lemma dyadic_neg c q :
  Zpos q < 2 ^ 24 -> -100 <= c <= 100 -> dyadic c (Zneg q) = canonAt c true q.
Proof. apply (dyadic_signed c true q). Qed.

(** A whole number below 2^24 in magnitude times [2^j], placed [j] binary
    places lower, normalises to the same float. *)
Lemma dyadic_scaled c (j : nat) z :
  - 2 ^ 24 < z < 2 ^ 24 -> -100 <= c <= 100 ->
  dyadic (c - Z.of_nat j) (z * 2 ^ Z.of_nat j) = dyadic c z.
Proof.
  intros Hz Hc. destruct z as [| q | q].
  - reflexivity.
  - rewrite dyadic_pos by lia.
    replace (Zpos q * 2 ^ Z.of_nat j) with (Zpos (shiftN j q))
      by (rewrite Zpos_shiftN; reflexivity).
    apply (round_scaled c false q j); [apply digits_bound | ]; lia.
  - rewrite dyadic_neg by lia.
    replace (Zneg q * 2 ^ Z.of_nat j) with (Zneg (shiftN j q)).
    + apply (round_scaled c true q j); [apply digits_bound | ]; lia.
    + rewrite <- !Pos2Z.opp_pos, Zpos_shiftN. lia.
Qed.

(** The mantissa of the binary32 form, aligned to a lower exponent. *)
Lemma canon_aligned c q e (j : nat) :
  digits q <= 24 ->
  e = digits q - 24 + c - Z.of_nat j ->
  fst (shl_align (shiftN (Z.to_nat (24 - digits q)) q) (digits q - 24 + c) e)
    = shiftN (Z.to_nat (24 - digits q) + j) q.
Proof.
  intros Hq ->. pose proof (digits_pos q) as Hq1.
  unfold shl_align.
  destruct (digits q - 24 + c - Z.of_nat j - (digits q - 24 + c))
    as [| d | d] eqn:Hshift; cbn [fst].
  - f_equal. lia.
  - lia.
  - rewrite Pos_iter_shiftN, shiftN_add. f_equal. lia.
Qed.

Lemma cond_Zopp_shiftN s J q :
  cond_Zopp s (Zpos (shiftN J q)) = signed s q * 2 ^ Z.of_nat J.
Proof. rewrite Zpos_shiftN. destruct s; cbn [cond_Zopp signed]; lia. Qed.

(** Both mantissas aligned to the lower of the two exponents. *)
Lemma canon_aligned_pair c qa qb :
  digits qa <= 24 -> digits qb <= 24 ->
  let J := Z.to_nat (24 - Z.min (digits qa) (digits qb)) in
  let ez := Z.min (digits qa - 24 + c) (digits qb - 24 + c) in
  ez = c - Z.of_nat J /\
  fst (shl_align (shiftN (Z.to_nat (24 - digits qa)) qa) (digits qa - 24 + c) ez)
    = shiftN J qa /\
  fst (shl_align (shiftN (Z.to_nat (24 - digits qb)) qb) (digits qb - 24 + c) ez)
    = shiftN J qb.
Proof.
  intros Ha Hb J ez. pose proof (digits_pos qa). pose proof (digits_pos qb).
  split; [subst J ez; lia |]. split.
  - rewrite (canon_aligned c qa ez (Z.to_nat (digits qa - Z.min (digits qa) (digits qb))))
      by (subst ez; lia).
    f_equal. subst J. lia.
  - rewrite (canon_aligned c qb ez (Z.to_nat (digits qb - Z.min (digits qa) (digits qb))))
      by (subst ez; lia).
    f_equal. subst J. lia.
Qed.

Lemma sub_canon c sa qa sb qb :
  Zpos qa < 2 ^ 24 -> Zpos qb < 2 ^ 24 -> -100 <= c <= 100 ->
  - 2 ^ 24 < signed sa qa - signed sb qb < 2 ^ 24 ->
  F32.sub (canonAt c sa qa) (canonAt c sb qb)
  = dyadic c (signed sa qa - signed sb qb).
Proof.
  intros Ha Hb Hc Hr.
  destruct (canon_aligned_pair c qa qb (digits_bound qa Ha) (digits_bound qb Hb))
    as (Hez & Hqa & Hqb).
  unfold canonAt, F32.sub, SFsub. cbv zeta in *.
  rewrite Hqa, Hqb, !cond_Zopp_shiftN, Hez, <- Z.mul_sub_distr_r.
  apply (dyadic_scaled c _ _ Hr Hc).
Qed.

Lemma add_canon c sa qa sb qb :
  Zpos qa < 2 ^ 24 -> Zpos qb < 2 ^ 24 -> -100 <= c <= 100 ->
  - 2 ^ 24 < signed sa qa + signed sb qb < 2 ^ 24 ->
  F32.add (canonAt c sa qa) (canonAt c sb qb)
  = dyadic c (signed sa qa + signed sb qb).
Proof.
  intros Ha Hb Hc Hr.
  destruct (canon_aligned_pair c qa qb (digits_bound qa Ha) (digits_bound qb Hb))
    as (Hez & Hqa & Hqb).
  unfold canonAt, F32.add, SFadd. cbv zeta in *.
  rewrite Hqa, Hqb, !cond_Zopp_shiftN, Hez, <- Z.mul_add_distr_r.
  apply (dyadic_scaled c _ _ Hr Hc).
Qed.

(** A number of the grid is zero or in binary32 form. *)
Lemma dyadic_cases c z :
  - 2 ^ 24 < z < 2 ^ 24 -> -100 <= c <= 100 ->
  (z = 0 /\ dyadic c z = S754_zero false) \/
  (exists s q, z = signed s q /\ Zpos q < 2 ^ 24 /\ dyadic c z = canonAt c s q).
Proof.
  intros Hz Hc. destruct z as [| q | q].
  - left. split; reflexivity.
  - right. exists false, q. repeat split; [lia | apply dyadic_pos; lia].
  - right. exists true, q. repeat split; [lia | apply dyadic_neg; lia].
Qed.

(** Subtraction is exact on a grid while the difference stays below 2^24
    steps. *)
Lemma sub_dyadic c a b :
  - 2 ^ 24 < a < 2 ^ 24 -> - 2 ^ 24 < b < 2 ^ 24 -> - 2 ^ 24 < a - b < 2 ^ 24 ->
  -100 <= c <= 100 ->
  F32.sub (dyadic c a) (dyadic c b) = dyadic c (a - b).
Proof.
  intros Ha Hb Hr Hc.
  destruct (dyadic_cases c a Ha Hc) as [[-> Ea] | (sa & qa & -> & Hqa & Ea)];
  destruct (dyadic_cases c b Hb Hc) as [[-> Eb] | (sb & qb & -> & Hqb & Eb)];
    rewrite ?Ea, ?Eb.
  - reflexivity.
  - replace (0 - signed sb qb) with (signed (negb sb) qb) by (destruct sb; reflexivity).
    rewrite dyadic_signed by assumption. reflexivity.
  - rewrite Z.sub_0_r, Ea. reflexivity.
  - apply sub_canon; assumption.
Qed.

Lemma add_dyadic c a b :
  - 2 ^ 24 < a < 2 ^ 24 -> - 2 ^ 24 < b < 2 ^ 24 -> - 2 ^ 24 < a + b < 2 ^ 24 ->
  -100 <= c <= 100 ->
  F32.add (dyadic c a) (dyadic c b) = dyadic c (a + b).
Proof.
  intros Ha Hb Hr Hc.
  destruct (dyadic_cases c a Ha Hc) as [[-> Ea] | (sa & qa & -> & Hqa & Ea)];
  destruct (dyadic_cases c b Hb Hc) as [[-> Eb] | (sb & qb & -> & Hqb & Eb)];
    rewrite ?Ea, ?Eb.
  - reflexivity.
  - rewrite Z.add_0_l, Eb. reflexivity.
  - rewrite Z.add_0_r, Ea. reflexivity.
  - apply add_canon; assumption.
Qed.

(** Adding one degree to a whole number of degrees is exact up to 2^24. *)
Lemma add_one n :
  - 2 ^ 24 <= n < 2 ^ 24 -> F32.add (F32.of_Z n) F32.one = F32.of_Z (n + 1).
Proof.
  intros Hn.
  destruct (Z.eq_dec n (- 2 ^ 24)) as [-> | Hlo]; [vm_compute; reflexivity |].
  destruct (Z.eq_dec n (2 ^ 24 - 1)) as [-> | Hhi]; [vm_compute; reflexivity |].
  apply (add_dyadic 0 n 1); lia.
Qed.

(** Taking one degree off a whole number of degrees is exact down to
    -2^24. *)
Lemma sub_one n :
  - 2 ^ 24 < n <= 2 ^ 24 -> F32.sub (F32.of_Z n) F32.one = F32.of_Z (n - 1).
Proof.
  intros Hn.
  destruct (Z.eq_dec n (2 ^ 24)) as [-> | Hhi]; [vm_compute; reflexivity |].
  destruct (Z.eq_dec n (- 2 ^ 24 + 1)) as [-> | Hlo]; [vm_compute; reflexivity |].
  apply (sub_dyadic 0 n 1); lia.
Qed.

(** Comparison of two numbers of a grid is comparison of their step
    counts. *)
Lemma compare_canon_same_sign c qa qb :
  digits qa <= 24 -> digits qb <= 24 ->
  match digits qa - 24 + c ?= digits qb - 24 + c with
  | Lt => Lt
  | Gt => Gt
  | Eq => Pos.compare_cont Eq (shiftN (Z.to_nat (24 - digits qa)) qa)
                              (shiftN (Z.to_nat (24 - digits qb)) qb)
  end = (Zpos qa ?= Zpos qb).
Proof.
  intros Ha Hb.
  pose proof (digits_spec qa) as [Ha1 Ha2]. pose proof (digits_spec qb) as [Hb1 Hb2].
  pose proof (digits_pos qa). pose proof (digits_pos qb).
  destruct (Z.compare_spec (digits qa - 24 + c) (digits qb - 24 + c)) as [He | He | He].
  - assert (Hd : digits qa = digits qb) by lia. rewrite Hd.
    change (Pos.compare_cont Eq ?x ?y) with (Zpos x ?= Zpos y).
    rewrite !Zpos_shiftN. symmetry. apply Zmult_compare_compat_r.
    apply Z.lt_gt, Z.pow_pos_nonneg; lia.
  - symmetry. apply Z.compare_lt_iff.
    assert (2 ^ digits qa <= 2 ^ (digits qb - 1)) by (apply Z.pow_le_mono_r; lia).
    lia.
  - symmetry. apply Z.compare_gt_iff.
    assert (2 ^ digits qb <= 2 ^ (digits qa - 1)) by (apply Z.pow_le_mono_r; lia).
    lia.
Qed.

Lemma compare_canon c sa qa sb qb :
  Zpos qa < 2 ^ 24 -> Zpos qb < 2 ^ 24 ->
  SFcompare (canonAt c sa qa) (canonAt c sb qb)
  = Some (signed sa qa ?= signed sb qb).
Proof.
  intros Ha Hb. apply digits_bound in Ha, Hb.
  unfold canonAt, SFcompare.
  pose proof (compare_canon_same_sign c qa qb Ha Hb) as H.
  destruct sa, sb; cbn [signed]; try reflexivity.
  - cbn [Z.compare] in *.
    destruct (digits qa - 24 + c ?= digits qb - 24 + c); rewrite <- H; reflexivity.
  - rewrite H. reflexivity.
Qed.

Lemma compare_dyadic c a b :
  - 2 ^ 24 < a < 2 ^ 24 -> - 2 ^ 24 < b < 2 ^ 24 -> -100 <= c <= 100 ->
  SFcompare (dyadic c a) (dyadic c b) = Some (a ?= b).
Proof.
  intros Ha Hb Hc.
  destruct (dyadic_cases c a Ha Hc) as [[-> Ea] | (sa & qa & -> & Hqa & Ea)];
  destruct (dyadic_cases c b Hb Hc) as [[-> Eb] | (sb & qb & -> & Hqb & Eb)];
    rewrite ?Ea, ?Eb.
  - reflexivity.
  - destruct sb; reflexivity.
  - destruct sa; reflexivity.
  - apply compare_canon; assumption.
Qed.

Lemma ltb_dyadic c a b :
  - 2 ^ 24 < a < 2 ^ 24 -> - 2 ^ 24 < b < 2 ^ 24 -> -100 <= c <= 100 ->
  F32.ltb (dyadic c a) (dyadic c b) = (a <? b).
Proof.
  intros Ha Hb Hc. unfold F32.ltb, SFltb. rewrite compare_dyadic by assumption.
  unfold Z.ltb. destruct (a ?= b); reflexivity.
Qed.

Lemma leb_dyadic c a b :
  - 2 ^ 24 < a < 2 ^ 24 -> - 2 ^ 24 < b < 2 ^ 24 -> -100 <= c <= 100 ->
  F32.leb (dyadic c a) (dyadic c b) = (a <=? b).
Proof.
  intros Ha Hb Hc. unfold F32.leb, SFleb. rewrite compare_dyadic by assumption.
  unfold Z.leb. destruct (a ?= b); reflexivity.
Qed.

(** A whole number of degrees is on the probe's grid. *)
Lemma of_Z_probeGrid n :
  - 2 ^ 24 < n < 2 ^ 24 -> F32.of_Z n = probeGrid (128 * n).
Proof.
  intros Hn. unfold probeGrid.
  pose proof (dyadic_scaled 0 7 n Hn ltac:(lia)) as H.
  change (0 - Z.of_nat 7) with (-7) in H. change (2 ^ Z.of_nat 7) with 128 in H.
  rewrite Z.mul_comm, H. reflexivity.
Qed.

(** ** Rounding and comparing in binary32

    A mantissa of more than 24 bits is truncated, or truncated and
    incremented; numbers with full mantissas compare as their values. *)

Lemma shr_m_shr_1 r : 0 <= shr_m r -> shr_m (shr_1 r) = shr_m r / 2.
Proof.
  destruct r as [m r s]. cbn [shr_m shr_1]. intros Hm.
  rewrite <- Z.div2_div.
  destruct m as [| [p | p |] | p]; cbn [shr_m]; try reflexivity. lia.
Qed.

Lemma shr_m_iter n : forall r,
  0 <= shr_m r -> shr_m (Nat.iter n shr_1 r) = shr_m r / 2 ^ Z.of_nat n.
Proof.
  induction n as [| n IH]; intros r Hr.
  - cbn [Nat.iter nat_rect]. change (2 ^ Z.of_nat 0) with 1. rewrite Z.div_1_r. reflexivity.
  - rewrite Nat.iter_succ, shr_m_shr_1.
    + rewrite IH by exact Hr. rewrite Nat2Z.inj_succ, Z.pow_succ_r by lia.
      rewrite Z.div_div by (try apply Z.pow_pos_nonneg; lia).
      f_equal. lia.
    + rewrite IH by exact Hr. apply Z.div_pos; [exact Hr | apply Z.pow_pos_nonneg; lia].
Qed.

(** Rounding to nearest gives the truncated mantissa or the next one. *)
Lemma round_nearest_even_bounds m l :
  m <= round_nearest_even m l <= m + 1.
Proof.
  unfold round_nearest_even. destruct l as [| []]; try lia.
  destruct (Z.even m); lia.
Qed.

Lemma digits_unique q d : 2 ^ (d - 1) <= Zpos q < 2 ^ d -> digits q = d.
Proof.
  intros [H1 H2]. pose proof (digits_spec q) as [H3 H4]. pose proof (digits_pos q).
  assert (Hd : 0 < d).
  { destruct (Z.ltb_spec 0 d) as [| Hle]; [assumption |].
    exfalso. assert (2 ^ d <= 2 ^ 0) by (apply Z.pow_le_mono_r; lia).
    change (2 ^ 0) with 1 in *. lia. }
  destruct (Z.lt_trichotomy (digits q) d) as [Hlt | [Heq | Hgt]]; [| exact Heq |].
  - assert (2 ^ digits q <= 2 ^ (d - 1)) by (apply Z.pow_le_mono_r; lia). lia.
  - assert (2 ^ d <= 2 ^ (digits q - 1)) by (apply Z.pow_le_mono_r; lia). lia.
Qed.

(** Rounding a mantissa of more than 24 bits: the result has a 24-bit
    mantissa and is no less than the mantissa with its low bits cleared. *)
Lemma round_long s (z : positive) e :
  24 < digits z -> -149 <= e -> digits z + e - 23 <= 104 ->
  exists mf ef,
    binary_round F32.prec F32.emax s z e = S754_finite s mf ef /\
    digits mf = 24 /\ e <= ef /\
    2 ^ (digits z - 24) * (Zpos z / 2 ^ (digits z - 24)) <= Zpos mf * 2 ^ (ef - e).
Proof.
  intros Hlong He Hmax.
  pose proof (digits_spec z) as [Hz1 Hz2].
  unfold binary_round.
  change (Zpos (digits2_pos z)) with (digits z).
  rewrite fexp_normal by lia.
  assert (Halign : shl_align z e (digits z + e - 24) = (z, e)).
  { unfold shl_align. destruct (digits z + e - 24 - e) eqn:E; try reflexivity. lia. }
  rewrite Halign. clear Halign.
  unfold binary_round_aux.
  assert (Hshr : exists r,
             shr_fexp F32.prec F32.emax (Zpos z) e loc_Exact = (r, e + (digits z - 24)) /\
             shr_m r = Zpos z / 2 ^ (digits z - 24)).
  { unfold shr_fexp. cbn [Zdigits2 shr_record_of_loc].
    change (Zpos (digits2_pos z)) with (digits z).
    rewrite fexp_normal by lia.
    replace (digits z + e - 24 - e) with (digits z - 24) by lia.
    destruct (digits z - 24) as [| p |] eqn:Ep; try lia.
    cbn [shr]. rewrite iter_pos_nat. eexists. split; [reflexivity |].
    rewrite shr_m_iter by (cbn [shr_m]; lia).
    cbn [shr_m]. rewrite positive_nat_Z. reflexivity. }
  destruct Hshr as (r & -> & Hr).
  set (sh := digits z - 24) in *.
  set (m1 := Zpos z / 2 ^ sh) in *.
  assert (Hpow : 0 < 2 ^ sh) by (apply Z.pow_pos_nonneg; lia).
  assert (Hm1 : 2 ^ 23 <= m1 < 2 ^ 24).
  { subst m1. split.
    - apply Z.div_le_lower_bound; [exact Hpow |].
      rewrite <- Z.pow_add_r by lia. replace (sh + 23) with (digits z - 1) by lia.
      exact Hz1.
    - apply Z.div_lt_upper_bound; [exact Hpow |].
      rewrite <- Z.pow_add_r by lia. replace (sh + 24) with (digits z) by lia.
      exact Hz2. }
  pose proof (round_nearest_even_bounds (shr_m r) (loc_of_shr_record r)) as Hm2.
  rewrite Hr in *.
  set (m2 := round_nearest_even m1 (loc_of_shr_record r)) in *.
  clearbody m2.
  assert (Hdiv : 2 ^ sh * m1 <= Zpos z)
    by (subst m1; apply Z.mul_div_le; exact Hpow).
  destruct (Z.ltb_spec m2 (2 ^ 24)) as [Hlt | Hge].
  - destruct m2 as [| x |] eqn:Em2; try lia.
    assert (Hx : digits x = 24) by (apply digits_unique; lia).
    rewrite shr_fexp_normal by (auto; lia). cbn [shr_m].
    replace (e + sh <=? F32.emax - F32.prec) with true
      by (symmetry; apply Z.leb_le; unfold F32.emax, F32.prec; lia).
    exists x, (e + sh). split; [reflexivity |]. split; [exact Hx |].
    split; [lia |].
    replace (e + sh - e) with sh by lia. nia.
  - assert (Em2 : m2 = 2 ^ 24) by lia.
    rewrite Em2. change (2 ^ 24) with (Zpos (shiftN (Pos.to_nat 1) 8388608)).
    rewrite shr_fexp_shifted by (try reflexivity; lia). cbn [shr_m].
    replace (e + sh + 1 <=? F32.emax - F32.prec) with true
      by (symmetry; apply Z.leb_le; unfold F32.emax, F32.prec; lia).
    exists 8388608%positive, (e + sh + 1). split; [reflexivity |].
    split; [reflexivity |]. split; [lia |].
    replace (e + sh + 1 - e) with (sh + 1) by lia.
    rewrite Z.pow_add_r by lia. change (2 ^ 1) with 2.
    change (Zpos 8388608) with (2 ^ 23). nia.
Qed.

(** Two positive numbers with full mantissas compare as their values. *)
Lemma compare_normal m1 e1 m2 e2 c :
  digits m1 = 24 -> digits m2 = 24 -> c <= e1 -> c <= e2 ->
  SFcompare (S754_finite false m1 e1) (S754_finite false m2 e2)
  = Some (Zpos m1 * 2 ^ (e1 - c) ?= Zpos m2 * 2 ^ (e2 - c)).
Proof.
  intros H1 H2 Hc1 Hc2.
  pose proof (digits_spec m1) as [Ha1 Ha2]. pose proof (digits_spec m2) as [Hb1 Hb2].
  rewrite H1 in *. rewrite H2 in *. change (24 - 1) with 23 in *.
  cbn [SFcompare]. f_equal.
  assert (Hp1 : 0 < 2 ^ (e1 - c)) by (apply Z.pow_pos_nonneg; lia).
  assert (Hp2 : 0 < 2 ^ (e2 - c)) by (apply Z.pow_pos_nonneg; lia).
  destruct (Z.compare_spec e1 e2) as [He | He | He].
  - subst e2. change (Pos.compare_cont Eq m1 m2) with (Zpos m1 ?= Zpos m2).
    apply Zmult_compare_compat_r. lia.
  - symmetry. apply Z.compare_lt_iff.
    replace (e2 - c) with (e1 - c + (e2 - e1)) by lia.
    rewrite Z.pow_add_r by lia.
    assert (HB : 2 ^ 1 <= 2 ^ (e2 - e1)) by (apply Z.pow_le_mono_r; lia).
    change (2 ^ 1) with 2 in HB.
    apply Z.lt_le_trans with (2 * Zpos m2 * 2 ^ (e1 - c)).
    + apply Z.mul_lt_mono_pos_r; [exact Hp1 | lia].
    + rewrite (Z.mul_comm (2 ^ (e1 - c))), Z.mul_assoc.
      apply Z.mul_le_mono_nonneg_r; [lia |].
      rewrite (Z.mul_comm 2). apply Z.mul_le_mono_nonneg_l; lia.
  - symmetry. apply Z.compare_gt_iff.
    replace (e1 - c) with (e2 - c + (e1 - e2)) by lia.
    rewrite Z.pow_add_r by lia.
    assert (HB : 2 ^ 1 <= 2 ^ (e1 - e2)) by (apply Z.pow_le_mono_r; lia).
    change (2 ^ 1) with 2 in HB.
    apply Z.lt_le_trans with (2 * Zpos m1 * 2 ^ (e2 - c)).
    + apply Z.mul_lt_mono_pos_r; [exact Hp2 | lia].
    + rewrite (Z.mul_comm (2 ^ (e2 - c))), Z.mul_assoc.
      apply Z.mul_le_mono_nonneg_r; [lia |].
      rewrite (Z.mul_comm 2). apply Z.mul_le_mono_nonneg_l; lia.
Qed.

Lemma compare_normal_signed s1 m1 e1 s2 m2 e2 :
  digits m1 = 24 -> digits m2 = 24 -> -31 <= e1 -> -31 <= e2 ->
  SFcompare (S754_finite s1 m1 e1) (S754_finite s2 m2 e2)
  = Some (signed s1 m1 * 2 ^ (e1 + 31) ?= signed s2 m2 * 2 ^ (e2 + 31)).
Proof.
  intros H1 H2 He1 He2.
  assert (Hp1 : 0 < 2 ^ (e1 + 31)) by (apply Z.pow_pos_nonneg; lia).
  assert (Hp2 : 0 < 2 ^ (e2 + 31)) by (apply Z.pow_pos_nonneg; lia).
  pose proof (compare_normal m1 e1 m2 e2 (-31) H1 H2 He1 He2) as Hpos.
  replace (e1 - -31) with (e1 + 31) in Hpos by lia.
  replace (e2 - -31) with (e2 + 31) in Hpos by lia.
  destruct s1, s2; cbn [signed].
  - assert (Hneg : SFcompare (S754_finite true m1 e1) (S754_finite true m2 e2)
                   = option_map CompOpp
                       (SFcompare (S754_finite false m1 e1) (S754_finite false m2 e2))).
    { cbn [SFcompare option_map]. destruct (e1 ?= e2); reflexivity. }
    rewrite Hneg, Hpos. cbn [option_map]. f_equal.
    rewrite <- !Pos2Z.opp_pos, !Z.mul_opp_l, Z.compare_opp.
    symmetry. apply Z.compare_antisym.
  - cbn [SFcompare]. f_equal. symmetry. apply Z.compare_lt_iff.
    assert (0 < Zpos m2 * 2 ^ (e2 + 31)) by (apply Z.mul_pos_pos; lia).
    assert (Zneg m1 * 2 ^ (e1 + 31) < 0) by (apply Z.mul_neg_pos; lia).
    lia.
  - cbn [SFcompare]. f_equal. symmetry. apply Z.compare_gt_iff.
    assert (0 < Zpos m1 * 2 ^ (e1 + 31)) by (apply Z.mul_pos_pos; lia).
    assert (Zneg m2 * 2 ^ (e2 + 31) < 0) by (apply Z.mul_neg_pos; lia).
    lia.
  - exact Hpos.
Qed.

(** Numbers with a value compare as their values. *)
Lemma compare_hasValue x y vx vy :
  hasValue x vx -> hasValue y vy -> SFcompare x y = Some (vx ?= vy).
Proof.
  intros [[-> [sx ->]] | (sx & mx & ex & -> & Hmx & Hex & ->)]
         [[-> [sy ->]] | (sy & my & ey & -> & Hmy & Hey & ->)].
  - reflexivity.
  - assert (Hp : 0 < 2 ^ (ey + 31)) by (apply Z.pow_pos_nonneg; lia).
    cbn [SFcompare]. f_equal. symmetry. destruct sy; cbn [signed].
    + apply Z.compare_gt_iff. apply Z.mul_neg_pos; lia.
    + apply Z.compare_lt_iff. apply Z.mul_pos_pos; lia.
  - assert (Hp : 0 < 2 ^ (ex + 31)) by (apply Z.pow_pos_nonneg; lia).
    cbn [SFcompare]. f_equal. symmetry. destruct sx; cbn [signed].
    + apply Z.compare_lt_iff. apply Z.mul_neg_pos; lia.
    + apply Z.compare_gt_iff. apply Z.mul_pos_pos; lia.
  - apply compare_normal_signed; assumption.
Qed.

Lemma hasValue_canonAt c s q :
  Zpos q < 2 ^ 24 -> -8 <= c ->
  hasValue (canonAt c s q) (signed s q * 2 ^ (c + 31)).
Proof.
  intros Hq Hc. pose proof (digits_bound q Hq) as Hd. pose proof (digits_pos q) as Hd1.
  right. exists s, (shiftN (Z.to_nat (24 - digits q)) q), (digits q - 24 + c).
  split; [reflexivity |]. split; [rewrite digits_shiftN; lia |]. split; [lia |].
  replace (signed s (shiftN (Z.to_nat (24 - digits q)) q))
    with (signed s q * 2 ^ (24 - digits q)).
  - rewrite <- Z.mul_assoc, <- Z.pow_add_r by lia. f_equal. f_equal. lia.
  - destruct s; cbn [signed]; rewrite <- ?Pos2Z.opp_pos, Zpos_shiftN;
      replace (Z.of_nat (Z.to_nat (24 - digits q))) with (24 - digits q) by lia; lia.
Qed.

(** A number of a grid no finer than 2^-8 has its value. *)
Lemma hasValue_dyadic c z :
  - 2 ^ 24 < z < 2 ^ 24 -> -8 <= c <= 100 ->
  hasValue (dyadic c z) (z * 2 ^ (c + 31)).
Proof.
  intros Hz Hc.
  destruct (dyadic_cases c z Hz ltac:(lia)) as [[-> E] | (s & q & -> & Hq & E)];
    rewrite E.
  - left. split; [reflexivity | eexists; reflexivity].
  - apply hasValue_canonAt; lia.
Qed.

(** A whole number the setpoint can be has its value. *)
Lemma hasValue_of_Z n :
  - 2 ^ 24 <= n <= 2 ^ 24 -> hasValue (F32.of_Z n) (n * 2 ^ 31).
Proof.
  intros Hn.
  destruct (Z.eq_dec n (2 ^ 24)) as [-> | Hhi].
  { right. exists false, 8388608%positive, 1. repeat split; try reflexivity. lia. }
  destruct (Z.eq_dec n (- 2 ^ 24)) as [-> | Hlo].
  { right. exists true, 8388608%positive, 1. repeat split; try reflexivity. lia. }
  apply (hasValue_dyadic 0 n); lia.
Qed.

Lemma digits_lower q d : 2 ^ d <= Zpos q -> 0 <= d -> d < digits q.
Proof.
  intros Hq Hd. pose proof (digits_spec q) as [_ H2].
  destruct (Z.ltb_spec d (digits q)) as [| Hle]; [assumption |].
  assert (2 ^ digits q <= 2 ^ d) by (apply Z.pow_le_mono_r; [lia | exact Hle]). lia.
Qed.

Lemma digits_upper q d : Zpos q < 2 ^ d -> 0 <= d -> digits q <= d.
Proof.
  intros Hq Hd. pose proof (digits_spec q) as [H1 _]. pose proof (digits_pos q).
  destruct (Z.leb_spec (digits q) d) as [| Hlt]; [assumption |].
  assert (2 ^ d <= 2 ^ (digits q - 1)) by (apply Z.pow_le_mono_r; lia). lia.
Qed.

(** A setpoint above 65536 less a reading below 32768 in magnitude is far
    more than [tempDifference], also after rounding. *)
Lemma sub_far cx p s q :
  Zpos p < 2 ^ 24 -> 0 <= cx <= 1 -> 2 ^ 16 < Zpos p * 2 ^ cx ->
  Zpos q < 2 ^ 22 ->
  exists v,
    hasValue (F32.sub (canonAt cx false p) (canonAt (-7) s q)) v /\ 2 ^ 46 <= v.
Proof.
  intros Hp Hcx Hbig Hq.
  pose proof (digits_bound p Hp) as Hdp.
  pose proof (digits_upper q 22 Hq ltac:(lia)) as Hdq.
  pose proof (digits_pos q) as Hdq1.
  assert (Hdp16 : 16 <= digits p).
  { assert (2 ^ 15 <= Zpos p).
    { assert (2 ^ cx <= 2 ^ 1) by (apply Z.pow_le_mono_r; lia).
      change (2 ^ 1) with 2 in *. change (2 ^ 16) with 65536 in *.
      change (2 ^ 15) with 32768. nia. }
    pose proof (digits_lower p 15 H ltac:(lia)). lia. }
  unfold canonAt, F32.sub, SFsub. cbv zeta.
  replace (Z.min (digits p - 24 + cx) (digits q - 24 + -7))
    with (digits q - 24 + -7) by lia.
  rewrite (canon_aligned cx p (digits q - 24 + -7)
             (Z.to_nat (digits p - 24 + cx - (digits q - 24 + -7)))) by lia.
  rewrite (canon_aligned (-7) q (digits q - 24 + -7) 0) by lia.
  set (ey := digits q - 24 + -7).
  set (A := shiftN (Z.to_nat (24 - digits p) + Z.to_nat (digits p - 24 + cx - ey)) p).
  set (B := shiftN (Z.to_nat (24 - digits q) + 0) q).
  assert (HA : Zpos A = Zpos p * 2 ^ cx * 2 ^ (31 - digits q)).
  { subst A ey. rewrite Zpos_shiftN, <- Z.mul_assoc, <- Z.pow_add_r by lia.
    f_equal. f_equal. lia. }
  assert (HB : Zpos B = Zpos q * 2 ^ (24 - digits q)).
  { subst B. rewrite Zpos_shiftN. f_equal. f_equal. lia. }
  assert (Hpq : 0 < 2 ^ (24 - digits q)) by (apply Z.pow_pos_nonneg; lia).
  assert (Hsplit : 2 ^ (31 - digits q) = 128 * 2 ^ (24 - digits q)).
  { replace (31 - digits q) with (7 + (24 - digits q)) by lia.
    rewrite Z.pow_add_r by lia. reflexivity. }
  assert (Hdiff : 2 ^ 22 * 2 ^ (24 - digits q)
                  <= cond_Zopp false (Zpos A) - cond_Zopp s (Zpos B)).
  { assert (cond_Zopp s (Zpos B) <= Zpos B) by (destruct s; cbn [cond_Zopp]; lia).
    cbn [cond_Zopp] in *. rewrite HA, HB, Hsplit in *.
    change (2 ^ 16) with 65536 in *. change (2 ^ 22) with 4194304 in *. nia. }
  destruct (cond_Zopp false (Zpos A) - cond_Zopp s (Zpos B)) as [| z | z] eqn:Ez;
    try lia.
  cbn [binary_normalize].
  assert (Hz46 : 2 ^ (46 - digits q) <= Zpos z).
  { replace (46 - digits q) with (22 + (24 - digits q)) by lia.
    rewrite Z.pow_add_r by lia. exact Hdiff. }
  pose proof (digits_lower z (46 - digits q) Hz46 ltac:(lia)) as Hdz.
  assert (Hzup : Zpos z < 2 ^ 60).
  { assert (Zpos z <= Zpos A + Zpos B).
    { rewrite <- Ez. destruct s; cbn [cond_Zopp]; lia. }
    assert (Zpos A < 2 ^ 24 * 2 * 2 ^ (31 - digits q)).
    { rewrite HA. apply Z.mul_lt_mono_pos_r; [apply Z.pow_pos_nonneg; lia |].
      assert (2 ^ cx <= 2 ^ 1) by (apply Z.pow_le_mono_r; lia).
      change (2 ^ 1) with 2 in *. nia. }
    assert (2 ^ (31 - digits q) <= 2 ^ 30) by (apply Z.pow_le_mono_r; lia).
    assert (2 ^ (24 - digits q) <= 2 ^ 23) by (apply Z.pow_le_mono_r; lia).
    rewrite HB in *.
    change (2 ^ 22) with 4194304 in *. change (2 ^ 23) with 8388608 in *.
    change (2 ^ 24) with 16777216 in *. change (2 ^ 30) with 1073741824 in *.
    change (2 ^ 60) with 1152921504606846976. nia. }
  pose proof (digits_upper z 60 Hzup ltac:(lia)) as Hdz60.
  destruct (round_long false z ey) as (mf & ef & -> & Hmf & Hef & Hlow);
    try (subst ey; lia).
  exists (Zpos mf * 2 ^ (ef + 31)). split.
  - right. exists false, mf, ef. repeat split; [exact Hmf | subst ey; lia].
  - pose proof (digits_spec z) as [Hz1 _].
    set (sh := digits z - 24) in *.
    assert (Hpow : 0 < 2 ^ sh) by (apply Z.pow_pos_nonneg; lia).
    assert (Htr : 2 ^ (digits z - 1) <= 2 ^ sh * (Zpos z / 2 ^ sh)).
    { replace (digits z - 1) with (sh + 23) by lia.
      rewrite Z.pow_add_r by lia.
      apply Z.mul_le_mono_nonneg_l; [lia |].
      apply Z.div_le_lower_bound; [exact Hpow |].
      rewrite <- Z.pow_add_r by lia. replace (sh + 23) with (digits z - 1) by lia.
      exact Hz1. }
    replace (ef + 31) with ((ef - ey) + digits q) by (subst ey; lia).
    rewrite Z.pow_add_r by (subst ey; lia).
    rewrite Z.mul_assoc.
    apply Z.le_trans with (2 ^ (digits z - 1) * 2 ^ digits q).
    + rewrite <- Z.pow_add_r by lia. apply Z.pow_le_mono_r; lia.
    + apply Z.mul_le_mono_nonneg_r; [apply Z.pow_nonneg; lia | lia].
Qed.

Lemma hasValue_probeGrid k :
  - 2 ^ 24 < k < 2 ^ 24 -> hasValue (probeGrid k) (k * 2 ^ 24).
Proof. intros Hk. apply (hasValue_dyadic (-7) k); lia. Qed.

Lemma ltb_hasValue x y vx vy :
  hasValue x vx -> hasValue y vy -> F32.ltb x y = (vx <? vy).
Proof.
  intros Hx Hy. unfold F32.ltb, SFltb. rewrite (compare_hasValue x y vx vy Hx Hy).
  unfold Z.ltb. destruct (vx ?= vy); reflexivity.
Qed.

Lemma leb_hasValue x y vx vy :
  hasValue x vx -> hasValue y vy -> F32.leb x y = (vx <=? vy).
Proof.
  intros Hx Hy. unfold F32.leb, SFleb. rewrite (compare_hasValue x y vx vy Hx Hy).
  unfold Z.leb. destruct (vx ?= vy); reflexivity.
Qed.

(** A whole setpoint above 65536, as the float holds it. *)
Lemma of_Z_large n :
  65536 < n <= 2 ^ 24 ->
  exists cx p, F32.of_Z n = canonAt cx false p /\
               Zpos p < 2 ^ 24 /\ 0 <= cx <= 1 /\ n = Zpos p * 2 ^ cx.
Proof.
  intros Hn. destruct (Z.eq_dec n (2 ^ 24)) as [-> | Hne].
  - exists 1, 8388608%positive. repeat split; try reflexivity; lia.
  - destruct n as [| p |]; try lia.
    exists 0, p. split; [apply (dyadic_pos 0 p); lia |].
    split; [lia |]. split; [lia |]. change (2 ^ 0) with 1. lia.
Qed.

(** C1. In every control cycle the heater state left by the heater
    statement of [loop] is the one the two-regime function of section 4.4
    gives for the cycle's inputs: guarded turn-on and turn-off near the
    setpoint, ungated turn-on far below it, no change otherwise. *)
Theorem heaterControl_refines_decide (env : Env) (w : World) :
  heaterState (exec (heaterControl env) w) =
  Spec.decide tempDifference tempThreshold OnOffInterval
    (currentTemp w) (setTemp w) (heaterState w)
    (heaterOnMillis w) (heaterOffMillis w) (nextMillis env w).
Proof.
  unfold Spec.decide, Spec.overshootGuardActive, Spec.turnOnNear,
    Spec.turnOffNear, Spec.turnOnFar, Spec.isOff, Spec.isOn,
    heaterState, nextMillis.
  destruct w as [on st ct pt og rt hon hoff ls ee jn rp nm np nl nr].
  run. cbn [heaterIsOn setTemp currentTemp heaterOnMillis heaterOffMillis
            nMillis set_overShootControlActive set_nMillis].
  destruct (F32.leb (F32.sub st ct) tempDifference); cbn [fst snd].
  - destruct (F32.ltb (F32.add ct tempThreshold) st), on; cbn [negb andb orb fst snd].
    + destruct (F32.geb ct st); cbn [orb fst snd set_heaterIsOn set_relayPin heaterIsOn].
      * reflexivity.
      * destruct (_ >? _); reflexivity.
    + destruct (_ >? _); reflexivity.
    + destruct (F32.geb ct st); cbn [orb fst snd].
      * reflexivity.
      * destruct (_ >? _); reflexivity.
    + reflexivity.
  - destruct (F32.ltb ct st), on; reflexivity.
Qed.

(** The three heater scenarios of the specification. *)
Example scenario_far_below :
  heaterState (exec (heaterControl (frozenAt 0)) (heaterWorld false f22 f19 0 0)) = On.
Proof. reflexivity. Qed.

Example scenario_threshold_not_met :
  heaterState (exec (heaterControl (frozenAt 40000))
                 (heaterWorld false f22 f21_8 0 0)) = Off.
Proof. reflexivity. Qed.

Example scenario_above_setpoint :
  heaterState (exec (heaterControl (frozenAt 0)) (heaterWorld true f22 f22_5 0 0)) = Off.
Proof. reflexivity. Qed.

(** ** The heater statement: cutoff and fast recovery *)

(** C2, as stated, fails: heater On for 40 s at 19 degrees with the setpoint
    at 22 (three degrees below, outside the guard band) stays On. *)
Lemma cutoff_skipped_far_below :
  let w := heaterWorld true f22 f19 0 0 in
  let env := frozenAt 40000 in
  heaterIsOn w = true /\
  sub32 (nextMillis env w) (heaterOnMillis w) > OnOffInterval /\
  F32.ltb (currentTemp w) (setTemp w) = true /\
  heaterIsOn (exec (heaterControl env) w) = true.
Proof. vm_compute. repeat split; reflexivity. Qed.

(** C2, amended. Whenever the heater is On and more than [OnOffInterval]
    has passed on the counter since it was turned on, the overshoot guard
    decides.  If it is active (setpoint - currentTemp <= tempDifference),
    the heater statement turns the heater Off in that cycle, also when the
    temperature is still below the setpoint, and drives the relay low with
    it.  If it is not active, the heater is left On: flag, relay and both
    time stamps stay as they are. *)
Theorem cutoff_only_inside_guard (env : Env) (w : World) :
  heaterIsOn w = true ->
  sub32 (nextMillis env w) (heaterOnMillis w) > OnOffInterval ->
  let w' := exec (heaterControl env) w in
  (F32.leb (F32.sub (setTemp w) (currentTemp w)) tempDifference = true ->
   heaterIsOn w' = false /\ relayPin w' = false) /\
  (F32.leb (F32.sub (setTemp w) (currentTemp w)) tempDifference = false ->
   heaterIsOn w' = true /\ relayPin w' = relayPin w /\
   heaterOnMillis w' = heaterOnMillis w /\ heaterOffMillis w' = heaterOffMillis w).
Proof.
  unfold nextMillis.
  destruct w as [on st ct pt og rt hon hoff ls ee jn rp nm np nl nr].
  fields. intros -> Hdwell.
  apply Z.gtb_gt in Hdwell.
  split; intros Hguard; run; fields; rewrite Hguard; fields.
  - rewrite andb_false_r. fields.
    destruct (F32.geb ct st); fields.
    + split; reflexivity.
    + rewrite Hdwell. fields. split; reflexivity.
  - rewrite andb_false_r. fields. repeat split; reflexivity.
Qed.

Lemma cutoff_only_inside_guard_witness :
  let env := frozenAt 40000 in
  let near := heaterWorld true f22 f21 0 0 in
  let far := heaterWorld true f22 f19 0 0 in
  (F32.ltb (currentTemp near) (setTemp near) = true /\
   heaterIsOn (exec (heaterControl env) near) = false /\
   relayPin (exec (heaterControl env) near) = false) /\
  heaterIsOn (exec (heaterControl env) far) = true.
Proof.
  split.
  - split; [reflexivity |].
    apply (cutoff_only_inside_guard (frozenAt 40000) (heaterWorld true f22 f21 0 0));
      vm_compute; reflexivity.
  - apply (cutoff_only_inside_guard (frozenAt 40000) (heaterWorld true f22 f19 0 0));
      vm_compute; reflexivity.
Defined.

(** Below the band on the probe's grid, the guard test is false. *)
Lemma far_below_on_grid (n k : Z) :
  - 65536 <= n <= 65536 -> - 2 ^ 22 < k < 2 ^ 22 ->
  F32.ltb (probeGrid k) (F32.sub (F32.of_Z n) tempDifference) = true ->
  F32.leb (F32.sub (F32.of_Z n) (probeGrid k)) tempDifference = false /\
  F32.ltb (probeGrid k) (F32.of_Z n) = true.
Proof.
  intros Hn Hk. unfold tempDifference.
  rewrite (of_Z_probeGrid n), (of_Z_probeGrid 2) by lia.
  unfold probeGrid. change (128 * 2) with 256.
  rewrite !sub_dyadic, !ltb_dyadic, leb_dyadic by lia.
  intros Hlt. apply Z.ltb_lt in Hlt.
  split; [apply Z.leb_gt | apply Z.ltb_lt]; lia.
Qed.

(** Setpoint above 65536: every reading is far below it. *)
Lemma far_below_large n k :
  65536 < n <= 2 ^ 24 -> - 2 ^ 22 < k < 2 ^ 22 ->
  F32.leb (F32.sub (F32.of_Z n) (probeGrid k)) tempDifference = false /\
  F32.ltb (probeGrid k) (F32.of_Z n) = true.
Proof.
  intros Hn Hk.
  pose proof (hasValue_probeGrid k ltac:(lia)) as Hvk.
  pose proof (hasValue_of_Z n ltac:(lia)) as Hvn.
  pose proof (hasValue_of_Z 2 ltac:(lia)) as Hv2.
  change (F32.of_Z 2) with tempDifference in Hv2.
  split.
  - assert (Hsub : exists v,
               hasValue (F32.sub (F32.of_Z n) (probeGrid k)) v /\ 2 ^ 46 <= v).
    { destruct (of_Z_large n Hn) as (cx & p & E & Hp & Hcx & Hnp).
      rewrite E. unfold probeGrid.
      destruct k as [| q | q].
      - exists (signed false p * 2 ^ (cx + 31)). split.
        + change (F32.sub (canonAt cx false p) (dyadic (-7) 0))
            with (canonAt cx false p).
          apply hasValue_canonAt; lia.
        + cbn [signed]. rewrite Z.pow_add_r by lia. rewrite Z.mul_assoc, <- Hnp.
          change (2 ^ 31) with 2147483648. change (2 ^ 46) with 70368744177664. lia.
      - rewrite dyadic_pos by lia.
        apply sub_far; lia.
      - rewrite dyadic_neg by lia.
        apply sub_far; lia. }
    destruct Hsub as (v & Hv & Hbig).
    rewrite (leb_hasValue _ _ _ _ Hv Hv2). apply Z.leb_gt.
    change (2 ^ 31) with 2147483648. change (2 ^ 46) with 70368744177664 in Hbig. lia.
  - rewrite (ltb_hasValue _ _ _ _ Hvk Hvn). apply Z.ltb_lt.
    change (2 ^ 31) with 2147483648. change (2 ^ 24) with 16777216.
    change (2 ^ 22) with 4194304 in Hk. lia.
Qed.

(** Setpoint below -65536: no reading is below it. *)
Lemma not_below_small n k :
  - 2 ^ 24 <= n < -65536 -> - 2 ^ 22 < k < 2 ^ 22 ->
  F32.ltb (probeGrid k) (F32.sub (F32.of_Z n) tempDifference) = false.
Proof.
  intros Hn Hk.
  pose proof (hasValue_probeGrid k ltac:(lia)) as Hvk.
  assert (Hsub : exists v,
             hasValue (F32.sub (F32.of_Z n) tempDifference) v /\ v < - 2 ^ 46).
  { destruct (Z_lt_le_dec n (- 2 ^ 24 + 3)) as [Hedge | Hin].
    - assert (Hcases : n = - 2 ^ 24 \/ n = - 2 ^ 24 + 1 \/ n = - 2 ^ 24 + 2) by lia.
      destruct Hcases as [-> | [-> | ->]];
        (eexists; split;
         [ right; do 3 eexists; split; [vm_compute; reflexivity |];
           split; [reflexivity |]; split; [lia | reflexivity]
         | vm_compute; reflexivity ]).
    - exists ((n - 2) * 2 ^ 31). split.
      + unfold tempDifference. change F32.of_Z with (dyadic 0).
        rewrite sub_dyadic by lia. apply (hasValue_of_Z (n - 2)). lia.
      + change (2 ^ 31) with 2147483648. change (2 ^ 46) with 70368744177664. lia. }
  destruct Hsub as (v & Hv & Hsmall).
  rewrite (ltb_hasValue _ _ _ _ Hvk Hv). apply Z.ltb_ge.
  change (2 ^ 24) with 16777216. change (2 ^ 46) with 70368744177664 in Hsmall.
  change (2 ^ 22) with 4194304 in Hk. lia.
Qed.

(** The test of the fast-recovery zone, read in the reals ([k / 128 < n - 2])
    or as binary32 evaluates it, puts a whole setpoint and a reading of the
    grid outside the guard band with the reading below the setpoint. *)
Lemma far_below_whole n k :
  - 2 ^ 24 <= n <= 2 ^ 24 -> - 2 ^ 22 < k < 2 ^ 22 ->
  k < 128 * (n - 2) \/
  F32.ltb (probeGrid k) (F32.sub (F32.of_Z n) tempDifference) = true ->
  F32.leb (F32.sub (F32.of_Z n) (probeGrid k)) tempDifference = false /\
  F32.ltb (probeGrid k) (F32.of_Z n) = true.
Proof.
  intros Hn Hk Hbelow.
  destruct (Z_lt_le_dec n (-65536)) as [Hlo | Hlo].
  - exfalso. destruct Hbelow as [Hreal | Hlt].
    + change (2 ^ 22) with 4194304 in Hk. lia.
    + rewrite not_below_small in Hlt by lia. discriminate Hlt.
  - destruct (Z_lt_le_dec 65536 n) as [Hhi | Hhi].
    + apply far_below_large; lia.
    + destruct Hbelow as [Hreal | Hlt].
      * rewrite (of_Z_probeGrid n) by lia. unfold tempDifference.
        rewrite (of_Z_probeGrid 2) by lia. unfold probeGrid.
        rewrite sub_dyadic, leb_dyadic, ltb_dyadic by lia.
        split; [apply Z.leb_gt | apply Z.ltb_lt]; lia.
      * apply far_below_on_grid; [lia | lia | exact Hlt].
Qed.

(** C3. Whenever the heater is Off and the reading is below
    setpoint - tempDifference, the heater statement turns the heater On in
    that cycle and drives the relay high, whatever the two dwell time stamps
    and the clock are.  This holds for every pair of values the two
    variables can have in the sketch: [setTemp] a whole number [n] of
    degrees up to 2^24 in magnitude (it is loaded from a byte and moved by
    steps of one degree), [currentTemp] a number [k] of steps of 1/128
    degree below 32768 degrees in magnitude (the probe library answers a
    16-bit count of such steps, or -127).  The test of the zone may be read
    in the reals or as binary32 evaluates it. *)
Theorem fast_recovery_ignores_dwell
    (env : Env) (w : World) (lastOn lastOff : Z) (n k : Z) :
  setTemp w = F32.of_Z n -> - 2 ^ 24 <= n <= 2 ^ 24 ->
  currentTemp w = probeGrid k -> - 2 ^ 22 < k < 2 ^ 22 ->
  heaterIsOn w = false ->
  k < 128 * (n - 2) \/
  F32.ltb (currentTemp w) (F32.sub (setTemp w) tempDifference) = true ->
  let w' := exec (heaterControl env)
              (set_heaterOnMillis lastOn (set_heaterOffMillis lastOff w)) in
  heaterIsOn w' = true /\ relayPin w' = true.
Proof.
  intros Hs Hn Hc Hk Hoff Hbelow.
  assert (Hfar : F32.leb (F32.sub (setTemp w) (currentTemp w)) tempDifference = false /\
                 F32.ltb (currentTemp w) (setTemp w) = true).
  { rewrite Hs, Hc in *. apply far_below_whole; assumption. }
  destruct Hfar as [Hguard Hlt].
  destruct w as [on st ct pt og rt hon hoff ls ee jn rp nm np nl nr].
  fields. subst on.
  run. fields.
  rewrite Hguard, Hlt. fields. split; reflexivity.
Qed.

Lemma fast_recovery_ignores_dwell_witness :
  let w' := exec (heaterControl (frozenAt 1000))
              (set_heaterOnMillis 900 (set_heaterOffMillis 999
                 (heaterWorld false f22 f19 0 0))) in
  heaterIsOn w' = true /\ relayPin w' = true.
Proof.
  apply (fast_recovery_ignores_dwell (frozenAt 1000)
           (heaterWorld false f22 f19 0 0) 900 999 22 2432).
  - reflexivity.
  - lia.
  - vm_compute. reflexivity.
  - lia.
  - reflexivity.
  - left. lia.
Defined.

(** ** The temperature sampler *)

(** C6. [readTemperatureWithInterval] started at counter reading [now]
    returns true, with a new reading from the probe in [currentTemp], only
    if now - readTempMillis >= readInterval on the counter; otherwise it
    returns false and leaves every variable and device as it was (only the
    clock has been read once). *)
Theorem sampler_gated (env : Env) (w : World) :
  let now := nextMillis env w in
  let r := readTemperatureWithInterval env w in
  (fst r = true -> sub32 now (readTempMillis w) >= readInterval) /\
  (sub32 now (readTempMillis w) >= readInterval ->
     fst r = true /\ currentTemp (snd r) = probe env (nProbe w)) /\
  (sub32 now (readTempMillis w) < readInterval ->
     fst r = false /\
     currentTemp (snd r) = currentTemp w /\
     readTempMillis (snd r) = readTempMillis w /\
     snd r = set_nMillis (S (nMillis w)) w).
Proof.
  unfold nextMillis.
  destruct w as [on st ct pt og rt hon hoff ls ee jn rp nm np nl nr].
  run. fields.
  destruct (Z.ltb_spec (sub32 (wrap32 (clock env nm)) rt) readInterval) as [Hlt | Hge];
    fields.
  - repeat split; intros; try reflexivity; try discriminate; lia.
  - repeat split; intros; try reflexivity; lia.
Qed.

Lemma sampler_gated_witness :
  let w := power_on ∅ in
  (fst (readTemperatureWithInterval (frozenAt 6000) w) = true /\
   currentTemp (snd (readTemperatureWithInterval (frozenAt 6000) w)) = F32.zero) /\
  (fst (readTemperatureWithInterval (frozenAt 4000) w) = false /\
   snd (readTemperatureWithInterval (frozenAt 4000) w) = set_nMillis 1 w).
Proof.
  split.
  - apply (sampler_gated (frozenAt 6000) (power_on ∅)). vm_compute. discriminate.
  - pose proof (sampler_gated (frozenAt 4000) (power_on ∅)) as (_ & _ & H).
    destruct H as (H1 & _ & _ & H4); [vm_compute; reflexivity |].
    split; [exact H1 | exact H4].
Defined.

(** ** Stepping through a statement *)

Lemma exec_bind {A B} (m : M A) (k : A -> M B) w :
  exec (bind m k) w = exec (k (eval m w)) (exec m w).
Proof. unfold exec, eval, bind. destruct (m w). reflexivity. Qed.

Lemma eval_bind {A B} (m : M A) (k : A -> M B) w :
  eval (bind m k) w = eval (k (eval m w)) (exec m w).
Proof. unfold exec, eval, bind. destruct (m w). reflexivity. Qed.

Lemma exec_ret {A} (a : A) w : exec (ret a) w = w.
Proof. reflexivity. Qed.

Lemma eval_ret {A} (a : A) w : eval (ret a) w = a.
Proof. reflexivity. Qed.

Lemma exec_get w : exec get w = w.
Proof. reflexivity. Qed.

Lemma eval_get w : eval get w = w.
Proof. reflexivity. Qed.

Lemma exec_modify f w : exec (modify f) w = f w.
Proof. reflexivity. Qed.

Lemma exec_millis env w : exec (millis env) w = set_nMillis (S (nMillis w)) w.
Proof. reflexivity. Qed.

Lemma eval_millis env w : eval (millis env) w = wrap32 (clock env (nMillis w)).
Proof. reflexivity. Qed.

Lemma exec_readProbe env w : exec (readProbe env) w = set_nProbe (S (nProbe w)) w.
Proof. reflexivity. Qed.

Lemma eval_readProbe env w : eval (readProbe env) w = probe env (nProbe w).
Proof. reflexivity. Qed.

Create Rewrite HintDb step.
#[local] Hint Rewrite @exec_bind @eval_bind @exec_ret @eval_ret exec_get eval_get
  exec_modify exec_millis eval_millis exec_readProbe eval_readProbe : step.

Ltac step := autorewrite with step; fields.

(** ** The EEPROM *)

Lemma EEPROM_read_insert_eq (cells : gmap Z Z) a v :
  EEPROM_read (<[a := v]> cells) a = v.
Proof. unfold EEPROM_read. rewrite lookup_insert_eq. reflexivity. Qed.

Lemma EEPROM_read_insert_ne (cells : gmap Z Z) a b v :
  a <> b -> EEPROM_read (<[a := v]> cells) b = EEPROM_read cells b.
Proof. intros Hab. unfold EEPROM_read. rewrite lookup_insert_ne by exact Hab. reflexivity. Qed.

(** After [EEPROM.update(a, v)] cell [a] reads [v]; the other cells, and
    everything but the EEPROM and its journal, are as before. *)
Lemma EEPROM_update_read_eq a v w :
  EEPROM_read (eeprom (exec (EEPROM_update a v) w)) a = v.
Proof.
  destruct w. run. fields.
  destruct (Z.eqb_spec (EEPROM_read eeprom0 a) v) as [He | Hne]; fields.
  - exact He.
  - apply EEPROM_read_insert_eq.
Qed.

Lemma EEPROM_update_read_ne a b v w :
  a <> b ->
  EEPROM_read (eeprom (exec (EEPROM_update a v) w)) b = EEPROM_read (eeprom w) b.
Proof.
  intros Hab. destruct w. run. fields.
  destruct (EEPROM_read eeprom0 a =? v); fields.
  - reflexivity.
  - apply EEPROM_read_insert_ne, Hab.
Qed.

Lemma to_u8_22 : F32.to_u8 (F32.of_Z 22) = 22.
Proof. reflexivity. Qed.

(** The fields [EEPROM.update] leaves alone. *)
Lemma EEPROM_update_frame a v w :
  let w' := exec (EEPROM_update a v) w in
  heaterIsOn w' = heaterIsOn w /\ setTemp w' = setTemp w /\
  relayPin w' = relayPin w /\ nMillis w' = nMillis w /\
  lastSaveSettingsMillis w' = lastSaveSettingsMillis w /\
  journal w' =
    mkCall a v (negb (EEPROM_read (eeprom w) a =? v)) (nMillis w) :: journal w.
Proof.
  destruct w. run. fields.
  destruct (EEPROM_read eeprom0 a =? v); fields; repeat split; reflexivity.
Qed.

Lemma V1_SaveSettings_saves env : savesSetpoint (V1.SaveSettings env).
Proof.
  intros w. unfold V1.SaveSettings. step.
  pose proof (EEPROM_update_frame addrSetTemp (F32.to_u8 (setTemp w)) w)
    as (_ & Hst & _ & _ & _ & Hj).
  pose proof (EEPROM_update_read_eq addrSetTemp (F32.to_u8 (setTemp w)) w) as Hr.
  pose proof (fun b => EEPROM_update_read_ne addrSetTemp b (F32.to_u8 (setTemp w)) w) as Hn.
  destruct (exec (EEPROM_update addrSetTemp (F32.to_u8 (setTemp w))) w).
  fields. subst. repeat split; auto.
Qed.

Lemma V2_SaveSettings_saves : savesSetpoint V2.SaveSettings.
Proof.
  intros w. unfold V2.SaveSettings. step.
  pose proof (EEPROM_update_frame addrSetTemp (F32.to_u8 (setTemp w)) w)
    as (_ & Hst & _ & _ & _ & Hj).
  pose proof (EEPROM_update_read_eq addrSetTemp (F32.to_u8 (setTemp w)) w) as Hr.
  pose proof (fun b => EEPROM_update_read_ne addrSetTemp b (F32.to_u8 (setTemp w)) w) as Hn.
  destruct (exec (EEPROM_update addrSetTemp (F32.to_u8 (setTemp w))) w).
  fields. subst. repeat split; auto.
Qed.

(** The EEPROM statements of [setup] on a device without the sentinel. *)
Lemma loadSettings_first_boot (save : M unit) (cells : gmap Z Z) :
  savesSetpoint save ->
  EEPROM_read cells addrInitialized <> eepromInitialized ->
  firstBootOutcome cells (exec (loadSettings save) (power_on cells)).
Proof.
  intros Hsave Hs. apply Z.eqb_neq in Hs.
  unfold loadSettings. step.
  change (eeprom (power_on cells)) with cells. rewrite Hs. cbn [negb].
  step.
  set (w1 := exec (EEPROM_update addrInitialized eepromInitialized) (power_on cells)).
  pose proof (EEPROM_update_frame addrInitialized eepromInitialized (power_on cells))
    as (_ & Hst & _ & _ & _ & Hj).
  pose proof (EEPROM_update_read_eq addrInitialized eepromInitialized (power_on cells)) as Hr.
  pose proof (fun b => EEPROM_update_read_ne addrInitialized b eepromInitialized (power_on cells)) as Hn.
  fold w1 in Hst, Hj, Hr, Hn. cbv zeta in Hst, Hj.
  destruct (Hsave w1) as (Hv & Hothers & Hkeep & Hjs).
  rewrite Hst in Hv, Hjs. change (setTemp (power_on cells)) with (F32.of_Z 22) in Hv, Hjs.
  rewrite to_u8_22 in Hv, Hjs.
  destruct (exec save w1) as [on st ct pt og rt hon hoff ls ee jn rp nm np nl nr].
  unfold firstBootOutcome, initialized. fields.
  rewrite Hv. repeat split.
  - rewrite Hothers by discriminate. exact Hr.
  - intros a Ha0 Ha1. rewrite Hothers by exact Ha1. apply Hn. congruence.
  - rewrite Hjs, Hj. reflexivity.
Qed.

(** The EEPROM statements of [setup] on a device that has the sentinel. *)
Lemma loadSettings_later_boot (save : M unit) (cells : gmap Z Z) :
  EEPROM_read cells addrInitialized = eepromInitialized ->
  laterBootOutcome cells (exec (loadSettings save) (power_on cells)).
Proof.
  intros Hs. apply Z.eqb_eq in Hs.
  unfold loadSettings. step.
  change (eeprom (power_on cells)) with cells. rewrite Hs. cbn [negb].
  step. unfold laterBootOutcome, power_on. fields. repeat split; reflexivity.
Qed.

Lemma firstBootOutcome_probe env cells w :
  firstBootOutcome cells w ->
  firstBootOutcome cells
    (exec (let* t := readProbe env in modify (set_currentTemp t)) w).
Proof. step. destruct w. exact (fun H => H). Qed.

Lemma laterBootOutcome_probe env cells w :
  laterBootOutcome cells w ->
  laterBootOutcome cells
    (exec (let* t := readProbe env in modify (set_currentTemp t)) w).
Proof. step. destruct w. exact (fun H => H). Qed.

Lemma setup_first_boot_V1 env cells :
  EEPROM_read cells addrInitialized <> eepromInitialized ->
  firstBootOutcome cells (exec (V1.setup env) (power_on cells)).
Proof.
  intros Hs. unfold V1.setup. rewrite exec_bind.
  apply firstBootOutcome_probe, loadSettings_first_boot;
    [apply V1_SaveSettings_saves | exact Hs].
Qed.

Lemma setup_first_boot_V2 env cells :
  EEPROM_read cells addrInitialized <> eepromInitialized ->
  firstBootOutcome cells (exec (V2.setup env) (power_on cells)).
Proof.
  intros Hs. unfold V2.setup. rewrite exec_bind.
  apply firstBootOutcome_probe, loadSettings_first_boot;
    [apply V2_SaveSettings_saves | exact Hs].
Qed.

Lemma setup_later_boot_V1 env cells :
  EEPROM_read cells addrInitialized = eepromInitialized ->
  laterBootOutcome cells (exec (V1.setup env) (power_on cells)).
Proof.
  intros Hs. unfold V1.setup. rewrite exec_bind.
  apply laterBootOutcome_probe, loadSettings_later_boot, Hs.
Qed.

Lemma setup_later_boot_V2 env cells :
  EEPROM_read cells addrInitialized = eepromInitialized ->
  laterBootOutcome cells (exec (V2.setup env) (power_on cells)).
Proof.
  intros Hs. unfold V2.setup. rewrite exec_bind.
  apply laterBootOutcome_probe, loadSettings_later_boot, Hs.
Qed.

(** C4. On a boot that finds a byte other than the sentinel 101 at offset
    0, [setup] writes the sentinel at offset 0 and the default setpoint 22
    at offset 1 and leaves 22.0 in [setTemp]; on a boot that finds the
    sentinel it calls no EEPROM write, leaves the cells as they were and
    loads [setTemp] from the byte at offset 1.  Both variants. *)
Theorem setup_initializes_or_loads (env : Env) (cells : gmap Z Z) :
  (EEPROM_read cells addrInitialized <> eepromInitialized ->
     firstBootOutcome cells (exec (V1.setup env) (power_on cells)) /\
     firstBootOutcome cells (exec (V2.setup env) (power_on cells))) /\
  (EEPROM_read cells addrInitialized = eepromInitialized ->
     laterBootOutcome cells (exec (V1.setup env) (power_on cells)) /\
     laterBootOutcome cells (exec (V2.setup env) (power_on cells))).
Proof.
  split; intros Hs; split;
    auto using setup_first_boot_V1, setup_first_boot_V2,
               setup_later_boot_V1, setup_later_boot_V2.
Qed.

Lemma setup_initializes_or_loads_witness :
  firstBootOutcome ∅ (exec (V1.setup (frozenAt 0)) (power_on ∅)) /\
  laterBootOutcome (<[addrSetTemp := 37]> (<[addrInitialized := 101]> ∅))
    (exec (V2.setup (frozenAt 0))
       (power_on (<[addrSetTemp := 37]> (<[addrInitialized := 101]> ∅)))).
Proof.
  split.
  - apply (setup_initializes_or_loads (frozenAt 0) ∅). vm_compute. discriminate.
  - apply (setup_initializes_or_loads (frozenAt 0)
             (<[addrSetTemp := 37]> (<[addrInitialized := 101]> ∅))).
    vm_compute. reflexivity.
Defined.

(** ** Saving the setpoint *)

Example trunc_22_5 : F32.trunc f22_5 = Some 22.
Proof. reflexivity. Qed.
Example trunc_minus1 : F32.trunc fminus1 = Some (-1).
Proof. reflexivity. Qed.
Example trunc_threshold : F32.trunc tempThreshold = Some 0.
Proof. reflexivity. Qed.

(** A byte read back from the EEPROM is never negative as a float, so no
    saved byte restores a setpoint below zero. *)
Lemma of_Z_byte_not_negative (b : Z) :
  0 <= b -> F32.of_Z b <> fminus1.
Proof.
  intros Hb. destruct b as [| p | p]; [discriminate | | lia].
  unfold F32.of_Z, binary_normalize, binary_round, binary_round_aux.
  destruct (shl_align _ _ _) as [mz ez].
  destruct (shr_fexp _ _ _ _ _) as [mrs e'].
  destruct (shr_fexp _ _ _ _ _) as [mrs' e''].
  destruct (shr_m mrs'); [discriminate | | discriminate].
  destruct (_ <=? _); discriminate.
Qed.

(** Whatever byte the setpoint cell holds, no boot of an initialised device
    restores -1 degree. *)
Lemma no_byte_restores_minus1 (setup : M unit) (cells : gmap Z Z) :
  laterBootOutcome cells (exec setup (power_on cells)) ->
  0 <= EEPROM_read cells addrSetTemp ->
  setTemp (exec setup (power_on cells)) <> fminus1.
Proof.
  intros (_ & _ & ->) Hb. apply of_Z_byte_not_negative, Hb.
Qed.

(** C5, as stated, fails: a setpoint of -1 degree (one decrement below a
    stored 0) is saved as the byte 255, and the next boot restores 255.0,
    not the truncation -1 of the saved value. *)
Lemma negative_setpoint_not_restored :
  let w := set_setTemp fminus1 (power_on (<[addrInitialized := 101]> ∅)) in
  F32.trunc (setTemp w) = Some (-1) /\
  restored_V1 (frozenAt 0) (exec (V1.SaveSettings (frozenAt 0)) w) = F32.of_Z 255 /\
  restored_V2 (frozenAt 0) (exec V2.SaveSettings w) = F32.of_Z 255 /\
  F32.neqb (F32.of_Z 255) (F32.of_Z (-1)) = true.
Proof. vm_compute. repeat split; reflexivity. Qed.

Lemma restored_after_save (save setup : M unit) (w : World) (n : Z) :
  savesSetpoint save ->
  (forall cells, EEPROM_read cells addrInitialized = eepromInitialized ->
                 laterBootOutcome cells (exec setup (power_on cells))) ->
  initialized w ->
  F32.trunc (setTemp w) = Some n ->
  0 <= n <= 255 ->
  EEPROM_read (eeprom (exec save w)) addrSetTemp = n /\
  setTemp (exec setup (power_on (eeprom (exec save w)))) = F32.of_Z n.
Proof.
  intros Hsave Hsetup Hinit Htr Hn.
  destruct (Hsave w) as (Hv & Hothers & _).
  assert (Hbyte : F32.to_u8 (setTemp w) = n).
  { unfold F32.to_u8. rewrite Htr. apply Z.mod_small. lia. }
  rewrite Hbyte in Hv. split; [exact Hv |].
  destruct (Hsetup (eeprom (exec save w))) as (_ & _ & Hst).
  - rewrite Hothers by discriminate. exact Hinit.
  - rewrite Hst, Hv. reflexivity.
Qed.

(** C5, amended. For every in-memory setpoint whose truncation toward zero
    is a whole number [n] of degrees in 0..255, [SaveSettings] leaves the
    single byte [n] at offset 1, and the setpoint restored by the next boot
    of an initialised device is exactly [n] degrees: the fraction of the
    saved value is gone.  Both variants. *)
Theorem save_truncates_to_byte (env env' : Env) (w : World) (n : Z) :
  initialized w ->
  F32.trunc (setTemp w) = Some n ->
  0 <= n <= 255 ->
  (EEPROM_read (eeprom (exec (V1.SaveSettings env) w)) addrSetTemp = n /\
   restored_V1 env' (exec (V1.SaveSettings env) w) = F32.of_Z n) /\
  (EEPROM_read (eeprom (exec V2.SaveSettings w)) addrSetTemp = n /\
   restored_V2 env' (exec V2.SaveSettings w) = F32.of_Z n).
Proof.
  intros Hinit Htr Hn. unfold restored_V1, restored_V2. split.
  - apply restored_after_save; auto using V1_SaveSettings_saves, setup_later_boot_V1.
  - apply restored_after_save; auto using V2_SaveSettings_saves, setup_later_boot_V2.
Qed.

Lemma save_truncates_to_byte_witness :
  let w := set_setTemp f22_5 (power_on (<[addrInitialized := 101]> ∅)) in
  (EEPROM_read (eeprom (exec (V1.SaveSettings (frozenAt 0)) w)) addrSetTemp = 22 /\
   restored_V1 (frozenAt 0) (exec (V1.SaveSettings (frozenAt 0)) w) = f22) /\
  (EEPROM_read (eeprom (exec V2.SaveSettings w)) addrSetTemp = 22 /\
   restored_V2 (frozenAt 0) (exec V2.SaveSettings w) = f22).
Proof.
  apply (save_truncates_to_byte (frozenAt 0) (frozenAt 0)
           (set_setTemp f22_5 (power_on (<[addrInitialized := 101]> ∅))) 22).
  - vm_compute. reflexivity.
  - vm_compute. reflexivity.
  - lia.
Defined.

Lemma V1_SaveSettings_again env w :
  savedAlready w -> notRewritten w (exec (V1.SaveSettings env) w).
Proof.
  unfold savedAlready, notRewritten. intros H. apply Z.eqb_eq in H.
  destruct w. run. fields. rewrite H. fields. split; reflexivity.
Qed.

Lemma V2_SaveSettings_again w :
  savedAlready w -> notRewritten w (exec V2.SaveSettings w).
Proof.
  unfold savedAlready, notRewritten. intros H. apply Z.eqb_eq in H.
  destruct w. run. fields. rewrite H. fields. split; reflexivity.
Qed.

Lemma savesSetpoint_savedAlready save w :
  savesSetpoint save -> savedAlready (exec save w).
Proof.
  intros Hsave. destruct (Hsave w) as (Hv & _ & Hst & _).
  unfold savedAlready. rewrite Hv, Hst. reflexivity.
Qed.

(** C7. [SaveSettings] called twice in a row, the setpoint unchanged in
    between, leaves the EEPROM after the second call exactly as after the
    first; the second call does not rewrite the cell.  Both variants. *)
Theorem SaveSettings_idempotent (env : Env) (w : World) :
  let v1 := exec (V1.SaveSettings env) w in
  let v2 := exec V2.SaveSettings w in
  notRewritten v1 (exec (V1.SaveSettings env) v1) /\
  notRewritten v2 (exec V2.SaveSettings v2).
Proof.
  split.
  - apply V1_SaveSettings_again, savesSetpoint_savedAlready, V1_SaveSettings_saves.
  - apply V2_SaveSettings_again, savesSetpoint_savedAlready, V2_SaveSettings_saves.
Qed.

(** ** Invariants of the running sketch *)

Section Preserves.

Variable P : World -> Prop.

Lemma preserves_bind {A B} (m : M A) (k : A -> M B) :
  preserves P m -> (forall a, preserves P (k a)) -> preserves P (bind m k).
Proof. intros Hm Hk w Hw. rewrite exec_bind. apply Hk, Hm, Hw. Qed.

Lemma preserves_ret {A} (a : A) : preserves P (ret a).
Proof. intros w Hw. exact Hw. Qed.

Lemma preserves_get : preserves P get.
Proof. intros w Hw. exact Hw. Qed.

Lemma preserves_if {A} (c : bool) (m1 m2 : M A) :
  preserves P m1 -> preserves P m2 -> preserves P (if c then m1 else m2).
Proof. destruct c; auto. Qed.

End Preserves.

(** Known statements first, then the structure of the statement. *)
Ltac preserve_by leaf :=
  repeat first
    [ progress cbv zeta
    | leaf
    | apply preserves_ret
    | apply preserves_get
    | apply preserves_bind; [ | intros ? ]
    | apply preserves_if ].

Lemma preserves_keepsHeater f :
  keepsHeater f -> preserves relayConsistent (modify f).
Proof.
  intros Hf w Hw. rewrite exec_modify. unfold relayConsistent in *.
  destruct (Hf w) as [-> ->]. exact Hw.
Qed.

Ltac keeps := intros [on st ct pt og rt hon hoff ls ee jn rp nm np nl nr]; fields; auto.

Lemma relay_millis env : preserves relayConsistent (millis env).
Proof. intros w. destruct w. exact (fun H => H). Qed.

Lemma relay_readProbe env : preserves relayConsistent (readProbe env).
Proof. intros w. destruct w. exact (fun H => H). Qed.

Lemma relay_query env b : preserves relayConsistent (query env b).
Proof. intros w. destruct w, b; exact (fun H => H). Qed.

Lemma relay_EEPROM_update a v : preserves relayConsistent (EEPROM_update a v).
Proof.
  intros w Hw. unfold relayConsistent in *.
  destruct (EEPROM_update_frame a v w) as (-> & _ & -> & _). exact Hw.
Qed.

(** Each transition sets the flag, the relay and its time stamp together. *)
Lemma turnHeaterOn_effect env w :
  let w' := exec (turnHeaterOn env) w in
  heaterIsOn w' = true /\ relayPin w' = true /\
  heaterOnMillis w' = nextMillis env w /\ heaterOffMillis w' = heaterOffMillis w.
Proof. destruct w. repeat split. Qed.

Lemma turnHeaterOff_effect env w :
  let w' := exec (turnHeaterOff env) w in
  heaterIsOn w' = false /\ relayPin w' = false /\
  heaterOffMillis w' = nextMillis env w /\ heaterOnMillis w' = heaterOnMillis w.
Proof. destruct w. repeat split. Qed.

Lemma relay_turnHeaterOn env : preserves relayConsistent (turnHeaterOn env).
Proof.
  intros w _. destruct (turnHeaterOn_effect env w) as (H1 & H2 & _).
  unfold relayConsistent. congruence.
Qed.

Lemma relay_turnHeaterOff env : preserves relayConsistent (turnHeaterOff env).
Proof.
  intros w _. destruct (turnHeaterOff_effect env w) as (H1 & H2 & _).
  unfold relayConsistent. congruence.
Qed.

Ltac relay_leaf :=
  first
    [ apply relay_millis | apply relay_readProbe | apply relay_query
    | apply relay_EEPROM_update | apply relay_turnHeaterOn
    | apply relay_turnHeaterOff
    | apply preserves_keepsHeater; solve [keeps] ].

Lemma relay_readTemperatureWithInterval env :
  preserves relayConsistent (readTemperatureWithInterval env).
Proof. unfold readTemperatureWithInterval. preserve_by relay_leaf. Qed.

Lemma relay_sampleTemperature env :
  preserves relayConsistent (sampleTemperature env).
Proof.
  unfold sampleTemperature.
  preserve_by ltac:(first [apply relay_readTemperatureWithInterval | relay_leaf]).
Qed.

Lemma relay_heaterControl env : preserves relayConsistent (heaterControl env).
Proof. unfold heaterControl. preserve_by relay_leaf. Qed.

Lemma relay_V1_SaveSettings env : preserves relayConsistent (V1.SaveSettings env).
Proof. unfold V1.SaveSettings. preserve_by relay_leaf. Qed.

Lemma relay_V2_SaveSettings : preserves relayConsistent V2.SaveSettings.
Proof. unfold V2.SaveSettings. preserve_by relay_leaf. Qed.

Lemma relay_loadSettings save :
  preserves relayConsistent save -> preserves relayConsistent (loadSettings save).
Proof.
  intros Hsave. unfold loadSettings.
  preserve_by ltac:(first [exact Hsave | relay_leaf]).
Qed.

Lemma relay_V1_setup env : preserves relayConsistent (V1.setup env).
Proof.
  unfold V1.setup.
  preserve_by ltac:(first [apply relay_loadSettings, relay_V1_SaveSettings | relay_leaf]).
Qed.

Lemma relay_V2_setup env : preserves relayConsistent (V2.setup env).
Proof.
  unfold V2.setup.
  preserve_by ltac:(first [apply relay_loadSettings, relay_V2_SaveSettings | relay_leaf]).
Qed.

Lemma relay_V1_loop env : preserves relayConsistent (V1.loop env).
Proof.
  unfold V1.loop, V1.buttons.
  preserve_by ltac:(first [ apply relay_V1_SaveSettings | apply relay_sampleTemperature
                          | apply relay_heaterControl | relay_leaf ]).
Qed.

(** Whatever the button statement, the sampling statement and the heater
    statement of the Pushbutton board keep, its [loop] keeps, for any fuel
    that lets the hold end. *)
Section LoopV2.

Variables (env : Env) (P : World -> Prop).
Hypothesis P_query : forall b, preserves P (query env b).
Hypothesis P_millis : preserves P (millis env).
Hypothesis P_decr : preserves P setTemp_decr.
Hypothesis P_incr : preserves P setTemp_incr.
Hypothesis P_save : preserves P V2.SaveSettings.
Hypothesis P_sample : preserves P (sampleTemperature env).
Hypothesis P_heater : preserves P (heaterControl env).

Lemma P_after {A} (m : M A) w :
  preserves P m -> P w -> forall a w', m w = (a, w') -> P w'.
Proof.
  intros Hm Hw a w' E. specialize (Hm w Hw). unfold exec in Hm.
  rewrite E in Hm. exact Hm.
Qed.

Lemma invariant_V2_hold fuel : forall t w w',
  P w -> V2.hold env fuel t w = Some w' -> P w'.
Proof.
  induction fuel as [| fuel IH]; intros t w w' Hw Hrun; [discriminate |].
  cbn [V2.hold] in Hrun.
  destruct (query env BtnLeft w) as [l w1] eqn:E1.
  pose proof (P_after _ _ (P_query BtnLeft) Hw _ _ E1) as H1.
  destruct l; [| congruence].
  destruct (query env BtnRight w1) as [r w2] eqn:E2.
  pose proof (P_after _ _ (P_query BtnRight) H1 _ _ E2) as H2.
  destruct r; [| congruence].
  destruct (millis env w2) as [now w3] eqn:E3.
  pose proof (P_after _ _ P_millis H2 _ _ E3) as H3.
  destruct (sub32 now t >? saveSettingsDelay).
  - injection Hrun as <-. apply P_save, H3.
  - eapply IH; eassumption.
Qed.

Lemma invariant_V2_buttons fuel w w' :
  P w -> V2.buttons env fuel w = Some w' -> P w'.
Proof.
  intros Hw Hrun. unfold V2.buttons in Hrun.
  destruct (query env BtnLeft w) as [l w1] eqn:E1.
  pose proof (P_after _ _ (P_query BtnLeft) Hw _ _ E1) as H1.
  destruct l; [injection Hrun as <-; apply P_decr, H1 |].
  destruct (query env BtnRight w1) as [r w2] eqn:E2.
  pose proof (P_after _ _ (P_query BtnRight) H1 _ _ E2) as H2.
  destruct r; [injection Hrun as <-; apply P_incr, H2 |].
  destruct (query env BtnLeft w2) as [l' w3] eqn:E3.
  pose proof (P_after _ _ (P_query BtnLeft) H2 _ _ E3) as H3.
  destruct l'; [| congruence].
  destruct (query env BtnRight w3) as [r' w4] eqn:E4.
  pose proof (P_after _ _ (P_query BtnRight) H3 _ _ E4) as H4.
  destruct r'; [| congruence].
  destruct (millis env w4) as [t w5] eqn:E5.
  pose proof (P_after _ _ P_millis H4 _ _ E5) as H5.
  eapply invariant_V2_hold; eassumption.
Qed.

Lemma invariant_V2_loop fuel w w' :
  P w -> V2.loop env fuel w = Some w' -> P w'.
Proof.
  intros Hw Hrun. unfold V2.loop in Hrun.
  destruct (V2.buttons env fuel w) as [w1 |] eqn:Hb; [| discriminate].
  injection Hrun as <-.
  apply invariant_V2_buttons in Hb; [| exact Hw].
  revert Hb. apply preserves_bind; [exact P_sample | intros _; exact P_heater].
Qed.

End LoopV2.

(** On the Pushbutton board a hold of both buttons ends in a save as soon
    as the clock has advanced by more than [saveSettingsDelay]; here the
    first turn of the [while] leaves it. *)
Example V2_loop_hold_saves :
  V2.loop heldLater 0 (exec (V2.setup heldLater) (power_on ∅)) = None /\
  option_map (fun w => map call_value (journal w))
    (V2.loop heldLater 1 (exec (V2.setup heldLater) (power_on ∅)))
  = Some [22; 22; 101].
Proof. vm_compute. split; reflexivity. Qed.

Lemma relay_V2_loop env fuel w w' :
  relayConsistent w -> V2.loop env fuel w = Some w' -> relayConsistent w'.
Proof.
  apply invariant_V2_loop.
  - apply relay_query.
  - apply relay_millis.
  - relay_leaf.
  - relay_leaf.
  - apply relay_V2_SaveSettings.
  - apply relay_sampleTemperature.
  - apply relay_heaterControl.
Qed.

(** C9. In every reachable state of either variant (at power-on, after
    [setup], after each [loop]) the relay pin is high exactly when
    [heaterIsOn] is true: [turnHeaterOn] and [turnHeaterOff] set the flag,
    the pin and their time stamp together, and nothing else in [setup] or
    [loop] touches the flag or the pin. *)
Theorem relay_follows_heaterIsOn (env : Env) (w : World) :
  (exists cells, w = power_on cells) \/ reachable_V1 env w \/ reachable_V2 env w ->
  relayPin w = heaterIsOn w.
Proof.
  intros [[cells ->] | [H | H]].
  - reflexivity.
  - induction H as [cells | w H IH].
    + apply relay_V1_setup. reflexivity.
    + apply relay_V1_loop, IH.
  - induction H as [cells | w fuel w' H IH Hrun].
    + apply relay_V2_setup. reflexivity.
    + eapply relay_V2_loop; eassumption.
Qed.

Lemma relay_follows_heaterIsOn_witness :
  let w := exec (V1.loop coldRoom) (exec (V1.setup coldRoom) (power_on ∅)) in
  heaterIsOn w = true /\ relayPin w = heaterIsOn w.
Proof.
  split.
  - vm_compute. reflexivity.
  - apply (relay_follows_heaterIsOn coldRoom). right. left.
    apply V1_looped, V1_booted.
Defined.

(** ** Once [setup] has run the device stays initialised *)

Lemma initialized_keepsEeprom f :
  (forall w, eeprom (f w) = eeprom w) -> preserves initialized (modify f).
Proof.
  intros Hf w Hw. rewrite exec_modify. unfold initialized in *.
  rewrite Hf. exact Hw.
Qed.

Lemma initialized_millis env : preserves initialized (millis env).
Proof. intros w. destruct w. exact (fun H => H). Qed.

Lemma initialized_readProbe env : preserves initialized (readProbe env).
Proof. intros w. destruct w. exact (fun H => H). Qed.

Lemma initialized_query env b : preserves initialized (query env b).
Proof. intros w. destruct w, b; exact (fun H => H). Qed.

Lemma initialized_save v : preserves initialized (EEPROM_update addrSetTemp v).
Proof.
  intros w Hw. unfold initialized in *.
  rewrite EEPROM_update_read_ne by discriminate. exact Hw.
Qed.

Ltac init_leaf :=
  first
    [ apply initialized_millis | apply initialized_readProbe
    | apply initialized_query | apply initialized_save
    | apply initialized_keepsEeprom; solve [keeps] ].

Lemma initialized_sampleTemperature env :
  preserves initialized (sampleTemperature env).
Proof.
  unfold sampleTemperature, readTemperatureWithInterval. preserve_by init_leaf.
Qed.

Lemma initialized_heaterControl env : preserves initialized (heaterControl env).
Proof.
  unfold heaterControl, turnHeaterOn, turnHeaterOff, digitalWrite_relay.
  preserve_by init_leaf.
Qed.

Lemma initialized_V1_loop env : preserves initialized (V1.loop env).
Proof.
  unfold V1.loop, V1.buttons, V1.SaveSettings.
  preserve_by ltac:(first [ apply initialized_sampleTemperature
                          | apply initialized_heaterControl | init_leaf ]).
Qed.

Lemma initialized_V2_loop env fuel w w' :
  initialized w -> V2.loop env fuel w = Some w' -> initialized w'.
Proof.
  apply invariant_V2_loop.
  - apply initialized_query.
  - apply initialized_millis.
  - init_leaf.
  - init_leaf.
  - unfold V2.SaveSettings. preserve_by init_leaf.
  - apply initialized_sampleTemperature.
  - apply initialized_heaterControl.
Qed.

Lemma firstBootOutcome_initialized cells w :
  firstBootOutcome cells w -> initialized w.
Proof. intros (H & _). exact H. Qed.

Lemma initialized_V1_setup env cells :
  initialized (exec (V1.setup env) (power_on cells)).
Proof.
  destruct (Z.eq_dec (EEPROM_read cells addrInitialized) eepromInitialized) as [E | E].
  - destruct (setup_later_boot_V1 env cells E) as (He & _).
    unfold initialized. rewrite He. exact E.
  - apply (firstBootOutcome_initialized cells), setup_first_boot_V1, E.
Qed.

Lemma initialized_V2_setup env cells :
  initialized (exec (V2.setup env) (power_on cells)).
Proof.
  destruct (Z.eq_dec (EEPROM_read cells addrInitialized) eepromInitialized) as [E | E].
  - destruct (setup_later_boot_V2 env cells E) as (He & _).
    unfold initialized. rewrite He. exact E.
  - apply (firstBootOutcome_initialized cells), setup_first_boot_V2, E.
Qed.

(** Every state from the end of [setup] on has the sentinel in place. *)
Lemma reachable_initialized env w :
  reachable_V1 env w \/ reachable_V2 env w -> initialized w.
Proof.
  intros [H | H].
  - induction H as [cells | w H IH].
    + apply initialized_V1_setup.
    + apply initialized_V1_loop, IH.
  - induction H as [cells | w fuel w' H IH Hrun].
    + apply initialized_V2_setup.
    + eapply initialized_V2_loop; eassumption.
Qed.

(** ** The save gesture of the Button board *)

Lemma V1_buttons_no_save env w :
  saveGesture env w = false ->
  eeprom (exec (V1.buttons env) w) = eeprom w /\
  journal (exec (V1.buttons env) w) = journal w /\
  lastSaveSettingsMillis (exec (V1.buttons env) w) = lastSaveSettingsMillis w.
Proof.
  unfold saveGesture, nextMillis.
  destruct w as [on st ct pt og rt hon hoff ls ee jn rp nm np nl nr].
  run. fields.
  destruct (button env BtnLeft nl) eqn:Hl; fields.
  - destruct (button env BtnRight nr) eqn:Hr; fields.
    + intros ->. fields.
      destruct (button env BtnLeft (S nl)); fields; [repeat split |].
      destruct (button env BtnRight (S nr)); fields; repeat split.
    + intros _. destruct (button env BtnLeft (S nl)); fields; [repeat split |].
      destruct (button env BtnRight (S nr)); fields; repeat split.
  - intros _. destruct (button env BtnLeft (S nl)); fields; [repeat split |].
    destruct (button env BtnRight nr); fields; repeat split.
Qed.

Lemma V1_buttons_save env w :
  saveGesture env w = true ->
  exec (V1.buttons env) w =
  exec (V1.SaveSettings env)
    (set_nMillis (S (nMillis w)) (set_nRight (S (nRight w)) (set_nLeft (S (nLeft w)) w))).
Proof.
  unfold saveGesture, nextMillis.
  destruct w as [on st ct pt og rt hon hoff ls ee jn rp nm np nl nr].
  fields. intros H. apply andb_true_iff in H as [H Hgate].
  apply andb_true_iff in H as [Hl Hr].
  unfold V1.buttons. rewrite exec_bind.
  assert (Hsave : eval
     (let* l := query env BtnLeft in
      if l then
        let* r := query env BtnRight in
        if r then
          let* now := millis env in
          let* w := get in
          ret (sub32 now (lastSaveSettingsMillis w) >? saveSettingsInterval)
        else ret false
      else ret false)
     (mkWorld on st ct pt og rt hon hoff ls ee jn rp nm np nl nr) = true).
  { run. fields. rewrite Hl. fields. rewrite Hr. fields. exact Hgate. }
  rewrite Hsave. f_equal.
  run. fields. rewrite Hl. fields. rewrite Hr. fields. reflexivity.
Qed.

Lemma sub32_wrap_le a b :
  b <= a -> sub32 (wrap32 a) (wrap32 b) <= a - b.
Proof.
  intros Hab. unfold sub32, wrap32.
  rewrite <- Zminus_mod. apply Z.mod_le; lia.
Qed.

Section SaveSpacing.

Variable env : Env.
Hypothesis Hclock : monotoneClock env.

Lemma saveInv_keepsSave f : keepsSave f -> preserves (saveInv env) (modify f).
Proof.
  intros Hf w Hw. rewrite exec_modify. unfold saveInv in *.
  destruct (Hf w) as (-> & -> & ->). exact Hw.
Qed.

Lemma saveInv_tick w :
  saveInv env w -> saveInv env (set_nMillis (S (nMillis w)) w).
Proof.
  destruct Hclock as [_ Hmono].
  intros (Hsp & S0 & Hls & HS & Hall).
  destruct w as [on st ct pt og rt hon hoff ls ee jn rp nm np nl nr].
  unfold saveInv. fields. split; [exact Hsp |].
  exists S0. repeat split; try tauto.
  specialize (Hmono nm (S nm)). lia.
Qed.

Lemma saveInv_millis : preserves (saveInv env) (millis env).
Proof. intros w Hw. rewrite exec_millis. apply saveInv_tick, Hw. Qed.

Lemma saveInv_readProbe : preserves (saveInv env) (readProbe env).
Proof. intros w. destruct w. exact (fun H => H). Qed.

Lemma saveInv_query b : preserves (saveInv env) (query env b).
Proof. intros w. destruct w, b; exact (fun H => H). Qed.

Ltac save_leaf :=
  first
    [ apply saveInv_millis | apply saveInv_readProbe | apply saveInv_query
    | apply saveInv_keepsSave; solve [keeps] ].

Lemma saveInv_turnHeaterOn : preserves (saveInv env) (turnHeaterOn env).
Proof. unfold turnHeaterOn, digitalWrite_relay. preserve_by save_leaf. Qed.

Lemma saveInv_turnHeaterOff : preserves (saveInv env) (turnHeaterOff env).
Proof. unfold turnHeaterOff, digitalWrite_relay. preserve_by save_leaf. Qed.

Lemma saveInv_sampleTemperature : preserves (saveInv env) (sampleTemperature env).
Proof.
  unfold sampleTemperature, readTemperatureWithInterval. preserve_by save_leaf.
Qed.

Lemma saveInv_heaterControl : preserves (saveInv env) (heaterControl env).
Proof.
  unfold heaterControl.
  preserve_by ltac:(first [ apply saveInv_turnHeaterOn
                          | apply saveInv_turnHeaterOff | save_leaf ]).
Qed.

(** A call that is not a save keeps the invariant. *)
Lemma saveInv_other_cell a v :
  a <> addrSetTemp -> preserves (saveInv env) (EEPROM_update a v).
Proof.
  intros Ha w (Hsp & S0 & Hls & HS & Hall).
  destruct (EEPROM_update_frame a v w) as (_ & _ & _ & Hnm & Hlast & Hj).
  unfold saveInv. rewrite Hnm, Hlast, Hj. split.
  - constructor; [exact Hsp |].
    apply Forall_forall. intros c _ Hsave. exfalso. apply Ha, Hsave.
  - exists S0. repeat split; try tauto.
    constructor; [| exact Hall]. intros Hsave. exfalso. apply Ha, Hsave.
Qed.

(** A save keeps the invariant when the last clock reading was taken more
    than the interval after every earlier save was stamped. *)
Lemma saveInv_SaveSettings w :
  saveInv env w ->
  Forall (fun c => isSave c ->
            saveSettingsInterval
              < clock env (nMillis w - 1) - clock env (call_tick c)) (journal w) ->
  saveInv env (exec (V1.SaveSettings env) w).
Proof.
  destruct Hclock as [H0 Hmono].
  intros (Hsp & S0 & Hls & HS & Hall) Hgate.
  unfold V1.SaveSettings. step.
  destruct (EEPROM_update_frame addrSetTemp (F32.to_u8 (setTemp w)) w)
    as (_ & _ & _ & Hnm & _ & Hj).
  destruct (exec (EEPROM_update addrSetTemp (F32.to_u8 (setTemp w))) w)
    as [on st ct pt og rt hon hoff ls ee jn rp nm np nl nr].
  fields. subst nm jn. unfold saveInv. fields. split.
  - constructor; [exact Hsp |].
    eapply List.Forall_impl; [| exact Hgate].
    intros c Hc _ Hsave. cbn [call_tick]. apply Hc, Hsave.
  - exists (clock env (nMillis w)). repeat split.
    + lia.
    + apply Hmono. lia.
    + constructor.
      * intros _. cbn [call_tick]. lia.
      * eapply List.Forall_impl; [| exact Hall].
        intros c Hc Hsave. specialize (Hc Hsave). lia.
Qed.

Lemma saveInv_buttons : preserves (saveInv env) (V1.buttons env).
Proof.
  intros w Hw.
  destruct (saveGesture env w) eqn:Hg.
  - rewrite (V1_buttons_save env w Hg).
    pose proof Hw as (Hsp & S0 & Hls & HS & Hall).
    unfold saveGesture, nextMillis in Hg.
    apply andb_true_iff in Hg as [_ Hgate]. apply Z.gtb_gt in Hgate.
    rewrite Hls in Hgate.
    pose proof (sub32_wrap_le (clock env (nMillis w)) S0 ltac:(lia)) as Hle.
    destruct w as [on st ct pt og rt hon hoff ls ee jn rp nm np nl nr].
    fields. apply saveInv_SaveSettings.
    + apply (saveInv_tick (mkWorld on st ct pt og rt hon hoff ls ee jn rp nm np (S nl) (S nr))).
      exact Hw.
    + fields. replace (S nm - 1)%nat with nm by lia.
      eapply List.Forall_impl; [| exact Hall].
      intros c Hc Hsave. specialize (Hc Hsave). lia.
  - destruct (V1_buttons_no_save env w Hg) as (_ & Hj & Hlast).
    assert (Hnm : (nMillis w <= nMillis (exec (V1.buttons env) w))%nat).
    { clear. destruct w as [on st ct pt og rt hon hoff ls ee jn rp nm np nl nr].
      run. fields.
      repeat match goal with
             | |- context [if ?c then _ else _] => destruct c; fields
             end; lia. }
    destruct Hw as (Hsp & S0 & Hls & HS & Hall).
    unfold saveInv. rewrite Hj, Hlast. split; [exact Hsp |].
    exists S0. repeat split; try tauto.
    destruct Hclock as [_ Hmono].
    specialize (Hmono _ _ Hnm). lia.
Qed.

Lemma saveInv_loop : preserves (saveInv env) (V1.loop env).
Proof.
  unfold V1.loop.
  preserve_by ltac:(first [ apply saveInv_buttons | apply saveInv_sampleTemperature
                          | apply saveInv_heaterControl ]).
Qed.

Lemma saveInv_power_on cells : saveInv env (power_on cells).
Proof.
  destruct Hclock as [H0 _].
  split; [constructor |].
  exists 0. cbn. repeat split; try lia. constructor.
Qed.

Lemma saveInv_setup cells : saveInv env (exec (V1.setup env) (power_on cells)).
Proof.
  unfold V1.setup. rewrite exec_bind.
  assert (Hrest : preserves (saveInv env)
            (let* t := readProbe env in modify (set_currentTemp t)))
    by preserve_by save_leaf.
  apply Hrest. clear Hrest.
  unfold loadSettings. rewrite exec_bind, exec_get, eval_get, exec_bind.
  assert (Hload : preserves (saveInv env)
            (modify (fun w => set_setTemp
                       (F32.of_Z (EEPROM_read (eeprom w) addrSetTemp)) w)))
    by preserve_by save_leaf.
  apply Hload. clear Hload.
  destruct (negb _).
  - rewrite exec_bind.
    destruct (EEPROM_update_frame addrInitialized eepromInitialized (power_on cells))
      as (_ & _ & _ & _ & _ & Hj).
    apply saveInv_SaveSettings.
    + apply saveInv_other_cell; [discriminate | apply saveInv_power_on].
    + rewrite Hj. constructor; [| constructor].
      intros Hsave. discriminate Hsave.
  - apply saveInv_power_on.
Qed.

(** Every reachable state of the Button board satisfies the invariant. *)
Lemma saveInv_reachable w : reachable_V1 env w -> saveInv env w.
Proof.
  induction 1 as [cells | w H IH].
  - apply saveInv_setup.
  - apply saveInv_loop, IH.
Qed.

End SaveSpacing.

(** The first-boot save stamps [lastSaveSettingsMillis] too. *)
Lemma first_boot_stamps env cells :
  EEPROM_read cells addrInitialized <> eepromInitialized ->
  lastSaveSettingsMillis (exec (V1.setup env) (power_on cells))
    = nextMillis env (power_on cells).
Proof.
  intros Hs. apply Z.eqb_neq in Hs.
  unfold V1.setup, loadSettings. step.
  change (eeprom (power_on cells)) with cells. rewrite Hs. cbn [negb].
  unfold V1.SaveSettings. step.
  destruct (EEPROM_update_frame addrInitialized eepromInitialized (power_on cells))
    as (_ & _ & _ & Hnm1 & _).
  set (w1 := exec (EEPROM_update addrInitialized eepromInitialized) (power_on cells)) in *.
  destruct (EEPROM_update_frame addrSetTemp (F32.to_u8 (setTemp w1)) w1)
    as (_ & _ & _ & Hnm2 & _).
  cbv zeta in Hnm1, Hnm2.
  destruct (exec (EEPROM_update addrSetTemp (F32.to_u8 (setTemp w1))) w1).
  fields. subst. rewrite Hnm1. reflexivity.
Qed.

(** C10. On the Button board a cycle whose combined press does not come
    more than [saveSettingsInterval] (5000 ms on the counter) after the
    stamp of the previous save leaves the EEPROM and its journal untouched,
    and the first-boot save sets that stamp as well; hence, on a clock that
    does not run backwards, any two saves of a run are more than 5000 ms
    apart: the reading taken before the later save exceeds the reading
    taken after the earlier one by more than 5000. *)
Theorem saves_rate_limited (env : Env) :
  (forall w, saveGesture env w = false ->
     eeprom (exec (V1.loop env) w) = eeprom w /\
     journal (exec (V1.loop env) w) = journal w) /\
  (forall cells, EEPROM_read cells addrInitialized <> eepromInitialized ->
     lastSaveSettingsMillis (exec (V1.setup env) (power_on cells))
       = nextMillis env (power_on cells)) /\
  (monotoneClock env ->
   forall w, reachable_V1 env w -> savesSpaced env (journal w)).
Proof.
  split; [| split].
  - intros w Hg. unfold V1.loop. rewrite exec_bind.
    destruct (V1_buttons_no_save env w Hg) as (He & Hj & _).
    rewrite <- He, <- Hj.
    generalize (exec (V1.buttons env) w). clear. intros w.
    assert (H : preserves (fun w' => eeprom w' = eeprom w /\ journal w' = journal w)
                  (sampleTemperature env;; heaterControl env)).
    { unfold sampleTemperature, readTemperatureWithInterval, heaterControl,
        turnHeaterOn, turnHeaterOff, digitalWrite_relay.
      preserve_by ltac:(first
        [ intros [? ? ? ? ? ? ? ? ? ? ? ? ? ? ? ?]; exact (fun H => H) ]). }
    apply H. split; reflexivity.
  - apply first_boot_stamps.
  - intros Hclock w Hw. apply (saveInv_reachable env Hclock w Hw).
Qed.

Lemma run_V1_reachable env cells n : reachable_V1 env (run_V1 env cells n).
Proof.
  induction n as [| n IH]; [apply V1_booted | apply V1_looped, IH].
Qed.

Lemma bothHeld_monotone : monotoneClock bothHeld.
Proof. split; [reflexivity |]. intros i j Hij. cbn [clock bothHeld]. lia. Qed.

Lemma saves_rate_limited_witness :
  (eeprom (run_V1 bothHeld ∅ 1) = eeprom (run_V1 bothHeld ∅ 0) /\
   journal (run_V1 bothHeld ∅ 1) = journal (run_V1 bothHeld ∅ 0)) /\
  lastSaveSettingsMillis (run_V1 bothHeld ∅ 0) = 0 /\
  map call_tick (journal (run_V1 bothHeld ∅ 3)) = [11; 6; 0; 0]%nat /\
  savesSpaced bothHeld (journal (run_V1 bothHeld ∅ 3)).
Proof.
  destruct (saves_rate_limited bothHeld) as (Hgate & Hstamp & Hspaced).
  split; [| split; [| split]].
  - apply (Hgate (run_V1 bothHeld ∅ 0)). vm_compute. reflexivity.
  - apply (Hstamp ∅). vm_compute. discriminate.
  - vm_compute. reflexivity.
  - apply (Hspaced bothHeld_monotone (run_V1 bothHeld ∅ 3)), run_V1_reachable.
Defined.

(** ** Adjusting the setpoint *)

(** C8, as stated, fails: at a setpoint of 2^24 degrees the increment is
    rounded away, and the decrement that follows leaves 2^24 - 1. *)
Lemma round_trip_lost_at_2p24 :
  let w := set_setTemp f2p24 (power_on ∅) in
  F32.valid (setTemp w) = true /\
  setTemp (exec setTemp_incr w) = f2p24 /\
  setTemp (exec (setTemp_incr;; setTemp_decr) w) = F32.of_Z 16777215 /\
  F32.neqb (setTemp (exec (setTemp_incr;; setTemp_decr) w)) (setTemp w) = true.
Proof. vm_compute. repeat split; reflexivity. Qed.

(** C8, amended. For every in-memory setpoint that is a whole number of
    degrees from -2^24 up to 2^24 - 1, [setTemp++] followed by [setTemp--]
    restores exactly the setpoint it started from; and for every setpoint
    whatever, neither statement touches the EEPROM or calls a write. *)
Theorem adjust_round_trip (w : World) (n : Z) :
  - 2 ^ 24 <= n < 2 ^ 24 ->
  setTemp w = F32.of_Z n ->
  setTemp (exec (setTemp_incr;; setTemp_decr) w) = setTemp w /\
  eeprom (exec setTemp_incr w) = eeprom w /\
  journal (exec setTemp_incr w) = journal w /\
  eeprom (exec (setTemp_incr;; setTemp_decr) w) = eeprom w /\
  journal (exec (setTemp_incr;; setTemp_decr) w) = journal w.
Proof.
  intros Hn Hs.
  destruct w as [on st ct pt og rt hon hoff ls ee jn rp nm np nl nr].
  run. fields. subst st.
  rewrite add_one by lia. rewrite sub_one by lia.
  replace (n + 1 - 1) with n by lia.
  repeat split; reflexivity.
Qed.

Lemma adjust_round_trip_witness :
  let w := set_setTemp f22 (power_on ∅) in
  setTemp (exec (setTemp_incr;; setTemp_decr) w) = setTemp w /\
  eeprom (exec setTemp_incr w) = eeprom w /\
  journal (exec setTemp_incr w) = journal w /\
  eeprom (exec (setTemp_incr;; setTemp_decr) w) = eeprom w /\
  journal (exec (setTemp_incr;; setTemp_decr) w) = journal w.
Proof.
  apply (adjust_round_trip (set_setTemp f22 (power_on ∅)) 22).
  - lia.
  - reflexivity.
Defined.

(** * Further properties of the control code *)

(** ** The setpoint stays a whole number *)

Lemma add_one_saturates n :
  - 2 ^ 24 <= n <= 2 ^ 24 ->
  F32.add (F32.of_Z n) F32.one = F32.of_Z (Z.min (n + 1) (2 ^ 24)).
Proof.
  intros Hn. destruct (Z.eq_dec n (2 ^ 24)) as [-> | Hne].
  - vm_compute. reflexivity.
  - rewrite add_one by lia. f_equal. lia.
Qed.

Lemma sub_one_saturates n :
  - 2 ^ 24 <= n <= 2 ^ 24 ->
  F32.sub (F32.of_Z n) F32.one = F32.of_Z (Z.max (n - 1) (- 2 ^ 24)).
Proof.
  intros Hn. destruct (Z.eq_dec n (- 2 ^ 24)) as [-> | Hne].
  - vm_compute. reflexivity.
  - rewrite sub_one by lia. f_equal. lia.
Qed.

Lemma whole_keepsSetTemp f :
  (forall w, setTemp (f w) = setTemp w) -> preserves wholeSetpoint (modify f).
Proof.
  intros Hf w Hw. rewrite exec_modify. unfold wholeSetpoint in *.
  rewrite Hf. exact Hw.
Qed.

Lemma whole_incr : preserves wholeSetpoint setTemp_incr.
Proof.
  intros w (n & Hn & Hs). destruct w. run. fields. subst.
  exists (Z.min (n + 1) (2 ^ 24)). split; [lia | apply add_one_saturates, Hn].
Qed.

Lemma whole_decr : preserves wholeSetpoint setTemp_decr.
Proof.
  intros w (n & Hn & Hs). destruct w. run. fields. subst.
  exists (Z.max (n - 1) (- 2 ^ 24)). split; [lia | apply sub_one_saturates, Hn].
Qed.

Lemma whole_millis env : preserves wholeSetpoint (millis env).
Proof. intros w. destruct w. exact (fun H => H). Qed.

Lemma whole_readProbe env : preserves wholeSetpoint (readProbe env).
Proof. intros w. destruct w. exact (fun H => H). Qed.

Lemma whole_query env b : preserves wholeSetpoint (query env b).
Proof. intros w. destruct w, b; exact (fun H => H). Qed.

Lemma whole_EEPROM_update a v : preserves wholeSetpoint (EEPROM_update a v).
Proof.
  intros w Hw. unfold wholeSetpoint in *.
  destruct (EEPROM_update_frame a v w) as (_ & -> & _). exact Hw.
Qed.

Ltac whole_leaf :=
  first
    [ apply whole_incr | apply whole_decr | apply whole_millis
    | apply whole_readProbe | apply whole_query | apply whole_EEPROM_update
    | apply whole_keepsSetTemp; solve [keeps] ].

Lemma whole_sampleTemperature env : preserves wholeSetpoint (sampleTemperature env).
Proof.
  unfold sampleTemperature, readTemperatureWithInterval. preserve_by whole_leaf.
Qed.

Lemma whole_heaterControl env : preserves wholeSetpoint (heaterControl env).
Proof.
  unfold heaterControl, turnHeaterOn, turnHeaterOff, digitalWrite_relay.
  preserve_by whole_leaf.
Qed.

Lemma whole_V1_loop env : preserves wholeSetpoint (V1.loop env).
Proof.
  unfold V1.loop, V1.buttons, V1.SaveSettings.
  preserve_by ltac:(first [ apply whole_sampleTemperature
                          | apply whole_heaterControl | whole_leaf ]).
Qed.

Lemma whole_V2_loop env fuel w w' :
  wholeSetpoint w -> V2.loop env fuel w = Some w' -> wholeSetpoint w'.
Proof.
  apply invariant_V2_loop.
  - apply whole_query.
  - apply whole_millis.
  - apply whole_decr.
  - apply whole_incr.
  - unfold V2.SaveSettings. preserve_by whole_leaf.
  - apply whole_sampleTemperature.
  - apply whole_heaterControl.
Qed.

Lemma whole_after_setup (setup : M unit) cells :
  byteCells cells ->
  (EEPROM_read cells addrInitialized <> eepromInitialized ->
     firstBootOutcome cells (exec setup (power_on cells))) ->
  (EEPROM_read cells addrInitialized = eepromInitialized ->
     laterBootOutcome cells (exec setup (power_on cells))) ->
  wholeSetpoint (exec setup (power_on cells)).
Proof.
  intros Hbytes Hfirst Hlater.
  destruct (Z.eq_dec (EEPROM_read cells addrInitialized) eepromInitialized) as [E | E].
  - destruct (Hlater E) as (_ & _ & Hs).
    exists (EEPROM_read cells addrSetTemp). split; [| exact Hs].
    specialize (Hbytes addrSetTemp). lia.
  - destruct (Hfirst E) as (_ & _ & _ & _ & Hs).
    exists 22. split; [lia | exact Hs].
Qed.

(** X1. In every state of a run that was powered on with a byte in every
    EEPROM cell, the setpoint is a whole number of degrees between -2^24
    and 2^24: the sketch does not clamp it, the float does (at 2^24 the
    increment, at -2^24 the decrement is absorbed).  Both variants. *)
Theorem setpoint_stays_whole (env : Env) (cells : gmap Z Z) (w : World) :
  byteCells cells ->
  runs_V1 env cells w \/ runs_V2 env cells w ->
  wholeSetpoint w.
Proof.
  intros Hbytes [H | H].
  - induction H as [| w H IH].
    + apply whole_after_setup;
        auto using setup_first_boot_V1, setup_later_boot_V1.
    + apply whole_V1_loop, IH.
  - induction H as [| w fuel w' H IH Hrun].
    + apply whole_after_setup;
        auto using setup_first_boot_V2, setup_later_boot_V2.
    + eapply whole_V2_loop; eassumption.
Qed.

Lemma byteCells_empty : byteCells ∅.
Proof. intros a. unfold EEPROM_read. rewrite lookup_empty. cbn. lia. Qed.

Lemma setpoint_stays_whole_witness :
  wholeSetpoint (exec (V1.loop bothHeld) (exec (V1.setup bothHeld) (power_on ∅))) /\
  setTemp (exec (V1.loop bothHeld) (exec (V1.setup bothHeld) (power_on ∅))) = f21.
Proof.
  split.
  - apply (setpoint_stays_whole bothHeld ∅).
    + exact byteCells_empty.
    + left. apply runs_V1_loop, runs_V1_boot.
  - vm_compute. reflexivity.
Defined.

(** ** The heater statement outside and inside the guard band *)

Lemma gtb_false a b : a <= b -> (a >? b) = false.
Proof. intros H. rewrite Z.gtb_ltb. apply Z.ltb_ge, H. Qed.

(** X2. Outside the guard band (the guard test setpoint - currentTemp <=
    tempDifference is false) a heater that is On is never turned off: the
    heater statement does not look at the clock and leaves the whole state
    as it is, but for the guard flag it clears.  No time on bounds the
    heating there. *)
Theorem heater_never_off_outside_guard (env : Env) (w : World) :
  heaterIsOn w = true ->
  F32.leb (F32.sub (setTemp w) (currentTemp w)) tempDifference = false ->
  exec (heaterControl env) w = set_overShootControlActive false w.
Proof.
  destruct w as [on st ct pt og rt hon hoff ls ee jn rp nm np nl nr].
  fields. intros -> Hguard.
  run. fields. rewrite Hguard. fields.
  rewrite andb_false_r. reflexivity.
Qed.

(** With a disconnected probe (-127 degrees) and the setpoint at 22, a
    heater on for ten hours stays on. *)
Lemma heater_never_off_outside_guard_witness :
  let w := heaterWorld true f22 fDisconnected 0 0 in
  exec (heaterControl (frozenAt 36000000)) w = set_overShootControlActive false w.
Proof.
  apply (heater_never_off_outside_guard (frozenAt 36000000)
           (heaterWorld true f22 fDisconnected 0 0));
    vm_compute; reflexivity.
Defined.

(** X3. Inside the guard band the heater keeps its state through the dwell
    interval: a heater that is Off is not turned on while the counter reads
    at most [OnOffInterval] past [heaterOffMillis], and a heater that is On
    with the reading still below the setpoint is not turned off while the
    counter reads at most [OnOffInterval] past [heaterOnMillis].  Flag,
    relay and both time stamps stay as they were. *)
Theorem heater_held_within_dwell (env : Env) (w : World) :
  F32.leb (F32.sub (setTemp w) (currentTemp w)) tempDifference = true ->
  (heaterIsOn w = false /\
   sub32 (nextMillis env w) (heaterOffMillis w) <= OnOffInterval)
  \/
  (heaterIsOn w = true /\
   F32.geb (currentTemp w) (setTemp w) = false /\
   sub32 (nextMillis env w) (heaterOnMillis w) <= OnOffInterval) ->
  let w' := exec (heaterControl env) w in
  heaterIsOn w' = heaterIsOn w /\ relayPin w' = relayPin w /\
  heaterOnMillis w' = heaterOnMillis w /\ heaterOffMillis w' = heaterOffMillis w.
Proof.
  unfold nextMillis.
  destruct w as [on st ct pt og rt hon hoff ls ee jn rp nm np nl nr].
  fields. intros Hguard Hcase.
  run. fields. rewrite Hguard. fields.
  destruct Hcase as [(-> & Hdwell) | (-> & Hge & Hdwell)].
  - destruct (F32.ltb (F32.add ct tempThreshold) st); fields.
    + rewrite (gtb_false _ _ Hdwell). fields. repeat split; reflexivity.
    + repeat split; reflexivity.
  - rewrite andb_false_r, Hge. fields.
    rewrite (gtb_false _ _ Hdwell). fields. repeat split; reflexivity.
Qed.

Lemma heater_held_within_dwell_witness :
  let w := heaterWorld false f22 f21 0 5000 in
  let w' := exec (heaterControl (frozenAt 20000)) w in
  F32.ltb (F32.add (currentTemp w) tempThreshold) (setTemp w) = true /\
  heaterIsOn w' = heaterIsOn w /\ relayPin w' = relayPin w /\
  heaterOnMillis w' = heaterOnMillis w /\ heaterOffMillis w' = heaterOffMillis w.
Proof.
  split; [reflexivity |].
  apply (heater_held_within_dwell (frozenAt 20000) (heaterWorld false f22 f21 0 5000)).
  - reflexivity.
  - left. split; [reflexivity | vm_compute; discriminate].
Defined.

(** ** What a run does to the EEPROM *)

Lemma to_u8_range x : 0 <= F32.to_u8 x <= 255.
Proof.
  unfold F32.to_u8. destruct (F32.trunc x) as [n |]; [| lia].
  pose proof (Z.mod_pos_bound n 256 ltac:(lia)). lia.
Qed.

Lemma eepromInv_keeps cells f :
  (forall w, eeprom (f w) = eeprom w /\ journal (f w) = journal w) ->
  preserves (eepromInv cells) (modify f).
Proof.
  intros Hf w Hw. rewrite exec_modify. unfold eepromInv in *.
  destruct (Hf w) as [-> ->]. exact Hw.
Qed.

Lemma eepromInv_millis env cells : preserves (eepromInv cells) (millis env).
Proof. intros w. destruct w. exact (fun H => H). Qed.

Lemma eepromInv_readProbe env cells : preserves (eepromInv cells) (readProbe env).
Proof. intros w. destruct w. exact (fun H => H). Qed.

Lemma eepromInv_query env cells b : preserves (eepromInv cells) (query env b).
Proof. intros w. destruct w, b; exact (fun H => H). Qed.

(** Offering the setpoint cell a byte keeps the invariant. *)
Lemma eepromInv_save cells v :
  0 <= v <= 255 -> preserves (eepromInv cells) (EEPROM_update addrSetTemp v).
Proof.
  intros Hv w (Hkept & Hbytes & Hcalls).
  destruct (EEPROM_update_frame addrSetTemp v w) as (_ & _ & _ & _ & _ & Hj).
  pose proof (EEPROM_update_read_eq addrSetTemp v w) as Hr.
  pose proof (fun b => EEPROM_update_read_ne addrSetTemp b v w) as Hn.
  unfold eepromInv. rewrite Hj. split; [| split].
  - intros a Ha0 Ha1. rewrite Hn by congruence. apply Hkept; assumption.
  - intros a. destruct (Z.eq_dec addrSetTemp a) as [<- | Hne].
    + rewrite Hr. exact Hv.
    + rewrite Hn by exact Hne. apply Hbytes.
  - constructor; [| exact Hcalls]. right. split; [reflexivity | exact Hv].
Qed.

Ltac eeprom_leaf :=
  first
    [ apply eepromInv_millis | apply eepromInv_readProbe | apply eepromInv_query
    | apply eepromInv_save; apply to_u8_range
    | apply eepromInv_keeps; solve [keeps] ].

Lemma eepromInv_sampleTemperature env cells :
  preserves (eepromInv cells) (sampleTemperature env).
Proof.
  unfold sampleTemperature, readTemperatureWithInterval. preserve_by eeprom_leaf.
Qed.

Lemma eepromInv_heaterControl env cells :
  preserves (eepromInv cells) (heaterControl env).
Proof.
  unfold heaterControl, turnHeaterOn, turnHeaterOff, digitalWrite_relay.
  preserve_by eeprom_leaf.
Qed.

Lemma eepromInv_V1_loop env cells : preserves (eepromInv cells) (V1.loop env).
Proof.
  unfold V1.loop, V1.buttons, V1.SaveSettings.
  preserve_by ltac:(first [ apply eepromInv_sampleTemperature
                          | apply eepromInv_heaterControl | eeprom_leaf ]).
Qed.

Lemma eepromInv_V2_loop env cells fuel w w' :
  eepromInv cells w -> V2.loop env fuel w = Some w' -> eepromInv cells w'.
Proof.
  apply invariant_V2_loop.
  - apply eepromInv_query.
  - apply eepromInv_millis.
  - eeprom_leaf.
  - eeprom_leaf.
  - unfold V2.SaveSettings. preserve_by eeprom_leaf.
  - apply eepromInv_sampleTemperature.
  - apply eepromInv_heaterControl.
Qed.

Lemma eepromInv_after_setup (setup : M unit) cells :
  byteCells cells ->
  (EEPROM_read cells addrInitialized <> eepromInitialized ->
     firstBootOutcome cells (exec setup (power_on cells))) ->
  (EEPROM_read cells addrInitialized = eepromInitialized ->
     laterBootOutcome cells (exec setup (power_on cells))) ->
  eepromInv cells (exec setup (power_on cells)).
Proof.
  intros Hbytes Hfirst Hlater.
  destruct (Z.eq_dec (EEPROM_read cells addrInitialized) eepromInitialized) as [E | E].
  - destruct (Hlater E) as (He & Hj & _).
    unfold eepromInv. rewrite He, Hj. split; [| split]; auto.
  - destruct (Hfirst E) as (H0 & H1 & Hothers & Hj & _).
    unfold initialized in H0.
    set (w := exec setup (power_on cells)) in *.
    split; [| split].
    + exact Hothers.
    + intros a.
      destruct (Z.eq_dec a addrInitialized) as [-> | Ha0];
        [rewrite H0; unfold eepromInitialized; lia |].
      destruct (Z.eq_dec a addrSetTemp) as [-> | Ha1]; [rewrite H1; lia |].
      rewrite Hothers by assumption. apply Hbytes.
    + destruct (journal w) as [| c1 [| c2 [| c3 l]]]; try discriminate Hj.
      injection Hj as Ha1 Hv1 Ha2 Hv2.
      constructor; [right; rewrite Ha1, Hv1; split; [reflexivity | lia] |].
      constructor; [left; split; assumption | constructor].
Qed.

(** X4. A run that was powered on with a byte in every EEPROM cell never
    changes a cell other than offsets 0 and 1, leaves a byte in every cell,
    and calls [EEPROM.update] only to offer the sentinel 101 to offset 0 or
    a byte 0..255 to offset 1.  Both variants. *)
Theorem run_touches_two_cells (env : Env) (cells : gmap Z Z) (w : World) :
  byteCells cells ->
  runs_V1 env cells w \/ runs_V2 env cells w ->
  eepromInv cells w.
Proof.
  intros Hbytes [H | H].
  - induction H as [| w H IH].
    + apply eepromInv_after_setup;
        auto using setup_first_boot_V1, setup_later_boot_V1.
    + apply eepromInv_V1_loop, IH.
  - induction H as [| w fuel w' H IH Hrun].
    + apply eepromInv_after_setup;
        auto using setup_first_boot_V2, setup_later_boot_V2.
    + eapply eepromInv_V2_loop; eassumption.
Qed.

Lemma run_V1_runs env cells n : runs_V1 env cells (run_V1 env cells n).
Proof.
  induction n as [| n IH]; [apply runs_V1_boot | apply runs_V1_loop, IH].
Qed.

Lemma run_touches_two_cells_witness :
  eepromInv ∅ (run_V1 bothHeld ∅ 3) /\
  map call_value (journal (run_V1 bothHeld ∅ 3)) = [21; 21; 22; 101].
Proof.
  split.
  - apply (run_touches_two_cells bothHeld ∅).
    + exact byteCells_empty.
    + left. apply run_V1_runs.
  - vm_compute. reflexivity.
Defined.

(** ** Saving and restoring whole setpoints *)

Lemma shiftr_shiftN k q :
  Z.shiftr (Zpos (shiftN k q)) (Z.of_nat k) = Zpos q.
Proof.
  rewrite Zpos_shiftN, Z.shiftr_div_pow2 by lia.
  apply Z.div_mul. apply Z.pow_nonzero; lia.
Qed.

(** Truncation gives back a whole number below 2^24. *)
Lemma trunc_of_Z n :
  - 2 ^ 24 < n < 2 ^ 24 -> F32.trunc (F32.of_Z n) = Some n.
Proof.
  intros Hn.
  destruct (dyadic_cases 0 n Hn ltac:(lia)) as [[-> E] | (s & q & -> & Hq & E)];
    change (dyadic 0) with F32.of_Z in E; rewrite E; [reflexivity |].
  pose proof (digits_bound q Hq) as Hd. pose proof (digits_pos q) as Hd1.
  unfold canonAt, F32.trunc. cbv zeta.
  assert (Hm : forall e, e = digits q - 24 + 0 ->
               match e with
               | Zneg k => Z.shiftr (Zpos (shiftN (Z.to_nat (24 - digits q)) q)) (Zpos k)
               | _ => Z.shiftl (Zpos (shiftN (Z.to_nat (24 - digits q)) q)) e
               end = Zpos q).
  { intros [| e | k] He.
    - replace (Z.to_nat (24 - digits q)) with 0%nat by lia. reflexivity.
    - lia.
    - replace (Zpos k) with (Z.of_nat (Z.to_nat (24 - digits q))) by lia.
      apply shiftr_shiftN. }
  rewrite (Hm _ eq_refl). destruct s; reflexivity.
Qed.

(** X5. A whole setpoint of 0..255 degrees survives a power cycle exactly:
    after [SaveSettings] the setpoint found by the next boot of an
    initialised device is the setpoint that was saved.  Both variants. *)
Theorem whole_setpoint_survives_power_cycle
    (env env' : Env) (w : World) (n : Z) :
  initialized w ->
  setTemp w = F32.of_Z n ->
  0 <= n <= 255 ->
  restored_V1 env' (exec (V1.SaveSettings env) w) = setTemp w /\
  restored_V2 env' (exec V2.SaveSettings w) = setTemp w.
Proof.
  intros Hinit Hs Hn.
  assert (Htr : F32.trunc (setTemp w) = Some n)
    by (rewrite Hs; apply trunc_of_Z; lia).
  unfold restored_V1, restored_V2. rewrite Hs. split.
  - apply (restored_after_save (V1.SaveSettings env) (V1.setup env') w n);
      auto using V1_SaveSettings_saves, setup_later_boot_V1.
  - apply (restored_after_save V2.SaveSettings (V2.setup env') w n);
      auto using V2_SaveSettings_saves, setup_later_boot_V2.
Qed.

Lemma whole_setpoint_survives_power_cycle_witness :
  let w := run_V1 bothHeld ∅ 1 in
  setTemp w = f21 /\
  restored_V1 coldRoom (exec (V1.SaveSettings bothHeld) w) = setTemp w /\
  restored_V2 coldRoom (exec V2.SaveSettings w) = setTemp w.
Proof.
  split; [vm_compute; reflexivity |].
  apply (whole_setpoint_survives_power_cycle bothHeld coldRoom
           (run_V1 bothHeld ∅ 1) 21).
  - vm_compute. reflexivity.
  - vm_compute. reflexivity.
  - lia.
Defined.

(** ** The save gesture right after power-on *)

Lemma V1_loop_no_save env w :
  saveGesture env w = false ->
  eeprom (exec (V1.loop env) w) = eeprom w /\
  journal (exec (V1.loop env) w) = journal w.
Proof.
  intros Hg. unfold V1.loop. rewrite exec_bind.
  destruct (V1_buttons_no_save env w Hg) as (He & Hj & _).
  rewrite <- He, <- Hj.
  generalize (exec (V1.buttons env) w). clear. intros w.
  assert (H : preserves (fun w' => eeprom w' = eeprom w /\ journal w' = journal w)
                (sampleTemperature env;; heaterControl env)).
  { unfold sampleTemperature, readTemperatureWithInterval, heaterControl,
      turnHeaterOn, turnHeaterOff, digitalWrite_relay.
    preserve_by ltac:(first
      [ intros [? ? ? ? ? ? ? ? ? ? ? ? ? ? ? ?]; exact (fun H => H) ]). }
  apply H. split; reflexivity.
Qed.

(** X6. On the Button board [lastSaveSettingsMillis] starts at zero, so
    the save gesture is dead right after power-on: on a clock that does not
    run backwards, a [loop] that starts while the clock reads at most
    [saveSettingsInterval] makes no call of [EEPROM.update], whatever the
    buttons do. *)
Theorem no_save_in_first_interval (env : Env) (w : World) :
  monotoneClock env ->
  reachable_V1 env w ->
  clock env (nMillis w) <= saveSettingsInterval ->
  saveGesture env w = false /\
  eeprom (exec (V1.loop env) w) = eeprom w /\
  journal (exec (V1.loop env) w) = journal w.
Proof.
  intros Hclock Hw Hearly.
  assert (Hg : saveGesture env w = false).
  { destruct (saveInv_reachable env Hclock w Hw) as (_ & S0 & Hls & HS & _).
    unfold saveGesture, nextMillis. rewrite Hls.
    pose proof (sub32_wrap_le (clock env (nMillis w)) S0 ltac:(lia)) as Hle.
    rewrite (gtb_false _ saveSettingsInterval) by lia.
    apply andb_false_r. }
  split; [exact Hg | apply V1_loop_no_save, Hg].
Qed.

Lemma no_save_in_first_interval_witness :
  let w := run_V1 bothHeld (<[addrInitialized := 101]> ∅) 0 in
  button bothHeld BtnLeft (nLeft w) = true /\
  button bothHeld BtnRight (nRight w) = true /\
  saveGesture bothHeld w = false /\
  eeprom (exec (V1.loop bothHeld) w) = eeprom w /\
  journal (exec (V1.loop bothHeld) w) = journal w.
Proof.
  split; [reflexivity | split; [reflexivity |]].
  apply (no_save_in_first_interval bothHeld
           (run_V1 bothHeld (<[addrInitialized := 101]> ∅) 0)).
  - exact bothHeld_monotone.
  - apply run_V1_reachable.
  - vm_compute. discriminate.
Defined.

(** ** The buttons in one pass of [loop] *)

Ltac conjs := repeat match goal with |- _ /\ _ => split end.

Lemma rest_keeps env w :
  let w' := exec (sampleTemperature env;; heaterControl env) w in
  setTemp w' = setTemp w /\ journal w' = journal w /\ eeprom w' = eeprom w.
Proof.
  assert (H : preserves
                (fun w' => setTemp w' = setTemp w /\ journal w' = journal w /\
                           eeprom w' = eeprom w)
                (sampleTemperature env;; heaterControl env)).
  { unfold sampleTemperature, readTemperatureWithInterval, heaterControl,
      turnHeaterOn, turnHeaterOff, digitalWrite_relay.
    preserve_by ltac:(first
      [ intros [? ? ? ? ? ? ? ? ? ? ? ? ? ? ? ?]; exact (fun H => H) ]). }
  apply H. conjs; reflexivity.
Qed.

Lemma V2_SaveSettings_exec w :
  exec V2.SaveSettings w =
  exec (EEPROM_update addrSetTemp (F32.to_u8 (setTemp w))) w.
Proof. reflexivity. Qed.

(** The [while] of the combined hold either leaves without a save, or
    saves at the first turn whose clock reading is late enough. *)
Lemma V2_hold_outcome env : forall fuel t w w',
  V2.hold env fuel t w = Some w' ->
  (setTemp w' = setTemp w /\ journal w' = journal w /\ eeprom w' = eeprom w) \/
  (exists j : nat,
     (forall i, (i <= j)%nat ->
        button env BtnLeft (nLeft w + i) = true /\
        button env BtnRight (nRight w + i) = true) /\
     (forall i, (i < j)%nat ->
        sub32 (wrap32 (clock env (nMillis w + i))) t <= saveSettingsDelay) /\
     sub32 (wrap32 (clock env (nMillis w + j))) t > saveSettingsDelay /\
     setTemp w' = setTemp w /\
     journal w' =
       mkCall addrSetTemp (F32.to_u8 (setTemp w))
         (negb (EEPROM_read (eeprom w) addrSetTemp =? F32.to_u8 (setTemp w)))
         (nMillis w + 1 + j)
       :: journal w).
Proof.
  induction fuel as [| fuel IH]; intros t w w' Hrun; [discriminate |].
  cbn [V2.hold] in Hrun.
  destruct w as [on st ct pt og rt hon hoff ls ee jn rp nm np nl nr].
  unfold query, millis in Hrun. fields.
  destruct (button env BtnLeft nl) eqn:Hl;
    [| injection Hrun as <-; left; conjs; reflexivity].
  destruct (button env BtnRight nr) eqn:Hr;
    [| injection Hrun as <-; left; conjs; reflexivity].
  destruct (sub32 (wrap32 (clock env nm)) t >? saveSettingsDelay) eqn:Hlate.
  - injection Hrun as <-. right. exists 0%nat.
    rewrite V2_SaveSettings_exec. fields.
    match goal with
    | |- context [exec (EEPROM_update ?a ?v) ?w0] =>
        destruct (EEPROM_update_frame a v w0) as (_ & Hst & _ & _ & _ & Hj)
    end.
    fields. rewrite Hst, Hj. rewrite !Nat.add_0_r.
    conjs.
    + intros i Hi. assert (i = 0%nat) as -> by lia. rewrite !Nat.add_0_r.
      split; assumption.
    + intros i Hi. lia.
    + apply Z.gtb_gt, Hlate.
    + reflexivity.
    + f_equal. f_equal. lia.
  - apply IH in Hrun. fields.
    destruct Hrun as [H | (j & Hheld & Hearly & Hgate & Hst & Hj)]; [left; exact H |].
    right. exists (S j). conjs.
    + intros [| i] Hi.
      * rewrite !Nat.add_0_r. split; assumption.
      * replace (nl + S i)%nat with (S nl + i)%nat by lia.
        replace (nr + S i)%nat with (S nr + i)%nat by lia.
        apply Hheld. lia.
    + intros [| i] Hi.
      * rewrite Nat.add_0_r. rewrite Z.gtb_ltb in Hlate.
        apply Z.ltb_ge in Hlate. exact Hlate.
      * replace (nm + S i)%nat with (S nm + i)%nat by lia. apply Hearly. lia.
    + replace (nm + S j)%nat with (S nm + j)%nat by lia. exact Hgate.
    + exact Hst.
    + rewrite Hj. f_equal. f_equal. lia.
Qed.

Lemma V2_buttons_outcome env fuel w w1 :
  V2.buttons env fuel w = Some w1 ->
  (journal w1 = journal w /\ eeprom w1 = eeprom w /\
   oneStep (setTemp w) (setTemp w1)) \/
  (savedAfterHold env w w1 /\ setTemp w1 = setTemp w).
Proof.
  intros Hrun. unfold V2.buttons in Hrun.
  destruct w as [on st ct pt og rt hon hoff ls ee jn rp nm np nl nr].
  unfold query, millis, setTemp_decr, setTemp_incr in Hrun.
  rewrite ?exec_modify in Hrun. fields.
  destruct (button env BtnLeft nl) eqn:Hl0.
  { injection Hrun as <-. left. unfold oneStep. fields. auto. }
  destruct (button env BtnRight nr) eqn:Hr0.
  { injection Hrun as <-. left. unfold oneStep. fields. auto. }
  destruct (button env BtnLeft (S nl)) eqn:Hl1.
  2: { injection Hrun as <-. left. unfold oneStep. fields. auto. }
  destruct (button env BtnRight (S nr)) eqn:Hr1.
  2: { injection Hrun as <-. left. unfold oneStep. fields. auto. }
  apply V2_hold_outcome in Hrun. fields.
  destruct Hrun as [(Hst & Hj & He) | (j & Hheld & Hearly & Hgate & Hst & Hj)].
  { left. unfold oneStep. auto. }
  right. split; [| exact Hst].
  exists j. unfold savedAfterHold. fields. conjs.
  - exact Hl0.
  - exact Hr0.
  - intros [| i] Hi.
    + rewrite !Nat.add_0_r, !Nat.add_1_r. split; assumption.
    + replace (nl + 1 + S i)%nat with (S (S nl) + i)%nat by lia.
      replace (nr + 1 + S i)%nat with (S (S nr) + i)%nat by lia.
      apply Hheld. lia.
  - intros i Hi. replace (nm + 1 + i)%nat with (S nm + i)%nat by lia.
    apply Hearly, Hi.
  - replace (nm + 1 + j)%nat with (S nm + j)%nat by lia. exact Hgate.
  - rewrite Hj. f_equal. f_equal. lia.
Qed.

(** X7. A pass of the Pushbutton board's [loop] that returns has either
    made no call of [EEPROM.update], left every cell and moved the setpoint
    by at most one step; or it has saved exactly once, with the setpoint
    unchanged, and then only after both buttons read pressed at every
    query of the hold and the clock reading was more than
    [saveSettingsDelay] after the reading taken when the hold began. *)
Theorem V2_pass_steps_or_saves_after_hold (env : Env) (fuel : nat) (w w' : World) :
  V2.loop env fuel w = Some w' ->
  (journal w' = journal w /\ eeprom w' = eeprom w /\
   oneStep (setTemp w) (setTemp w')) \/
  (savedAfterHold env w w' /\ setTemp w' = setTemp w).
Proof.
  intros Hrun. unfold V2.loop in Hrun.
  destruct (V2.buttons env fuel w) as [w1 |] eqn:Hb; [| discriminate].
  injection Hrun as <-.
  destruct (rest_keeps env w1) as (Hst & Hj & He).
  apply V2_buttons_outcome in Hb.
  destruct Hb as [(Hj1 & He1 & Hstep) | [(j & H) Hst1]].
  - left. rewrite Hst, Hj, He. auto.
  - right. split; [| congruence].
    exists j. rewrite Hj. exact H.
Qed.

Lemma V2_pass_steps_or_saves_after_hold_witness :
  let w := exec (V2.setup heldLater) (power_on ∅) in
  exists w',
    V2.loop heldLater 3 w = Some w' /\
    savedAfterHold heldLater w w' /\ setTemp w' = setTemp w.
Proof.
  eexists. split; [vm_compute; reflexivity |].
  match goal with
  | |- savedAfterHold ?e ?w ?w' /\ _ =>
      destruct (V2_pass_steps_or_saves_after_hold e 3 w w') as [(Hj & _) | H]
  end.
  - vm_compute. reflexivity.
  - exfalso. vm_compute in Hj. discriminate Hj.
  - exact H.
Defined.

(** The [while] returns, with a result that does not depend on the fuel,
    once a turn that leaves it is within the fuel. *)
Lemma V2_hold_returns env t : forall (j : nat) (w : World),
  button env BtnLeft (nLeft w + j) = false \/
  button env BtnRight (nRight w + j) = false \/
  sub32 (wrap32 (clock env (nMillis w + j))) t > saveSettingsDelay ->
  exists w', forall fuel, (j < fuel)%nat -> V2.hold env fuel t w = Some w'.
Proof.
  induction j as [| j IH]; intros w Hend;
    destruct w as [on st ct pt og rt hon hoff ls ee jn rp nm np nl nr];
    fields.
  - rewrite !Nat.add_0_r in Hend.
    destruct (button env BtnLeft nl) eqn:Hl.
    2: { eexists. intros [| fuel] Hf; [lia |]. cbn [V2.hold].
         unfold query. fields. rewrite Hl. reflexivity. }
    destruct (button env BtnRight nr) eqn:Hr.
    2: { eexists. intros [| fuel] Hf; [lia |]. cbn [V2.hold].
         unfold query. fields. rewrite Hl, Hr. reflexivity. }
    destruct Hend as [H | [H | H]]; try discriminate H.
    apply Z.gtb_gt in H.
    eexists. intros [| fuel] Hf; [lia |]. cbn [V2.hold].
    unfold query, millis. fields. rewrite Hl, Hr, H. reflexivity.
  - destruct (button env BtnLeft nl) eqn:Hl.
    2: { eexists. intros [| fuel] Hf; [lia |]. cbn [V2.hold].
         unfold query. fields. rewrite Hl. reflexivity. }
    destruct (button env BtnRight nr) eqn:Hr.
    2: { eexists. intros [| fuel] Hf; [lia |]. cbn [V2.hold].
         unfold query. fields. rewrite Hl, Hr. reflexivity. }
    destruct (sub32 (wrap32 (clock env nm)) t >? saveSettingsDelay) eqn:Hlate.
    { eexists. intros [| fuel] Hf; [lia |]. cbn [V2.hold].
      unfold query, millis. fields. rewrite Hl, Hr, Hlate. reflexivity. }
    destruct (IH (mkWorld on st ct pt og rt hon hoff ls ee jn rp (S nm) np (S nl) (S nr)))
      as [w' Hw'].
    { fields.
      replace (S nl + j)%nat with (nl + S j)%nat by lia.
      replace (S nr + j)%nat with (nr + S j)%nat by lia.
      replace (S nm + j)%nat with (nm + S j)%nat by lia. exact Hend. }
    exists w'. intros [| fuel] Hf; [lia |]. cbn [V2.hold].
    unfold query, millis. fields. rewrite Hl, Hr, Hlate.
    apply Hw'. lia.
Qed.

(** X8. The Pushbutton board's [loop] returns once the combined hold ends:
    if at some turn [j] of the [while] a button reads released or the clock
    reading is more than [saveSettingsDelay] after the start of the hold,
    the pass returns for every fuel above [j], always with the same
    world. *)
Theorem V2_loop_returns (env : Env) (w : World) (j : nat) :
  holdEndsAt env w j ->
  exists w', forall fuel, (j < fuel)%nat -> V2.loop env fuel w = Some w'.
Proof.
  intros Hend. unfold holdEndsAt in Hend.
  assert (Hb : exists w1, forall fuel, (j < fuel)%nat ->
                 V2.buttons env fuel w = Some w1).
  { destruct w as [on st ct pt og rt hon hoff ls ee jn rp nm np nl nr].
    fields. unfold V2.buttons, query, millis. fields.
    destruct (button env BtnLeft nl); [eexists; reflexivity |].
    destruct (button env BtnRight nr); [eexists; reflexivity |].
    destruct (button env BtnLeft (S nl)); [| eexists; reflexivity].
    destruct (button env BtnRight (S nr)); [| eexists; reflexivity].
    apply (V2_hold_returns env (wrap32 (clock env nm)) j).
    fields.
    replace (S (S nl) + j)%nat with (nl + 2 + j)%nat by lia.
    replace (S (S nr) + j)%nat with (nr + 2 + j)%nat by lia.
    replace (S nm + j)%nat with (nm + 1 + j)%nat by lia. exact Hend. }
  destruct Hb as [w1 Hw1].
  eexists. intros fuel Hf. unfold V2.loop. rewrite (Hw1 fuel Hf). reflexivity.
Qed.

Lemma V2_loop_returns_witness :
  let w := exec (V2.setup heldLater) (power_on ∅) in
  holdEndsAt heldLater w 0 /\
  exists w', forall fuel, (0 < fuel)%nat -> V2.loop heldLater fuel w = Some w'.
Proof.
  assert (H : holdEndsAt heldLater (exec (V2.setup heldLater) (power_on ∅)) 0).
  { right. right. vm_compute. reflexivity. }
  split; [exact H |].
  exact (V2_loop_returns heldLater (exec (V2.setup heldLater) (power_on ∅)) 0 H).
Defined.

(** X9. A pass of the Button board's [loop] either saves or steps, never
    both: when the save gesture fires it makes exactly one call of
    [EEPROM.update], offering the byte of the setpoint to [addrSetTemp],
    and leaves the setpoint; otherwise it makes no call, leaves every cell
    and moves the setpoint by at most one step. *)
Theorem V1_pass_saves_or_steps (env : Env) (w : World) :
  let w' := exec (V1.loop env) w in
  (saveGesture env w = true /\ setTemp w' = setTemp w /\
   journal w' =
     mkCall addrSetTemp (F32.to_u8 (setTemp w))
       (negb (EEPROM_read (eeprom w) addrSetTemp =? F32.to_u8 (setTemp w)))
       (S (nMillis w))
     :: journal w) \/
  (saveGesture env w = false /\ journal w' = journal w /\
   eeprom w' = eeprom w /\ oneStep (setTemp w) (setTemp w')).
Proof.
  cbv zeta. unfold V1.loop. rewrite exec_bind.
  destruct (rest_keeps env (exec (V1.buttons env) w)) as (Hst & Hj & He).
  change (exec (sampleTemperature env;; heaterControl env) (exec (V1.buttons env) w))
    with (exec (let* _ := sampleTemperature env in heaterControl env)
               (exec (V1.buttons env) w)) in *.
  rewrite Hst, Hj, He. clear Hst Hj He.
  destruct (saveGesture env w) eqn:Hg.
  - left. split; [reflexivity |].
    rewrite (V1_buttons_save env w Hg).
    destruct w as [on st ct pt og rt hon hoff ls ee jn rp nm np nl nr].
    run. fields.
    destruct (EEPROM_read ee addrSetTemp =? F32.to_u8 st); fields;
      split; reflexivity.
  - right. split; [reflexivity |].
    destruct (V1_buttons_no_save env w Hg) as (He & Hj & _).
    split; [exact Hj | split; [exact He |]].
    clear. unfold oneStep.
    destruct w as [on st ct pt og rt hon hoff ls ee jn rp nm np nl nr].
    run. fields.
    repeat match goal with
           | |- context [button env ?b ?k] => destruct (button env b k); fields
           | |- context [?a >? ?b] => destruct (a >? b); fields
           | |- context [EEPROM_read ?c ?a =? ?v] =>
               destruct (EEPROM_read c a =? v); fields
           end; auto.
Qed.

(** ** A probe that stays far below the setpoint *)

Lemma reading_keeps env f :
  (forall w, currentTemp (f w) = currentTemp w) ->
  preserves (holdsReading env) (modify f).
Proof.
  intros Hf w Hw. rewrite exec_modify. unfold holdsReading in *.
  rewrite Hf. exact Hw.
Qed.

Lemma reading_millis env : preserves (holdsReading env) (millis env).
Proof. intros w. destruct w. exact (fun H => H). Qed.

Lemma reading_query env b : preserves (holdsReading env) (query env b).
Proof. intros w. destruct w, b; exact (fun H => H). Qed.

Lemma reading_EEPROM_update env a v :
  preserves (holdsReading env) (EEPROM_update a v).
Proof.
  intros [on st ct pt og rt hon hoff ls ee jn rp nm np nl nr] Hw.
  unfold holdsReading in *. run. fields.
  destruct (EEPROM_read ee a =? v); fields; exact Hw.
Qed.

(** A fresh sample is a reading of the probe. *)
Lemma reading_fresh env :
  preserves (holdsReading env)
    (let* t := readProbe env in modify (set_currentTemp t)).
Proof.
  intros [on st ct pt og rt hon hoff ls ee jn rp nm np nl nr] _.
  exists np. reflexivity.
Qed.

Ltac reading_leaf :=
  first
    [ apply reading_millis | apply reading_query | apply reading_EEPROM_update
    | apply reading_keeps; solve [keeps] ].

Lemma reading_sampleTemperature env :
  preserves (holdsReading env) (sampleTemperature env).
Proof.
  unfold sampleTemperature, readTemperatureWithInterval.
  apply preserves_bind; [| intros fresh; preserve_by reading_leaf].
  apply preserves_bind; [apply reading_millis | intros now].
  apply preserves_bind; [apply preserves_get | intros w].
  apply preserves_if; [apply preserves_ret |].
  intros w0 Hw0.
  change (holdsReading env
            (exec (modify (set_readTempMillis (eval (millis env)
                     (exec (let* t := readProbe env in modify (set_currentTemp t)) w0))))
               (exec (millis env)
                  (exec (let* t := readProbe env in modify (set_currentTemp t)) w0)))).
  apply reading_keeps; [keeps |].
  apply reading_millis, reading_fresh, Hw0.
Qed.

Lemma reading_heaterControl env : preserves (holdsReading env) (heaterControl env).
Proof.
  unfold heaterControl, turnHeaterOn, turnHeaterOff, digitalWrite_relay.
  preserve_by reading_leaf.
Qed.

Lemma reading_V1_loop env : preserves (holdsReading env) (V1.loop env).
Proof.
  unfold V1.loop, V1.buttons, V1.SaveSettings.
  preserve_by ltac:(first [ apply reading_sampleTemperature
                          | apply reading_heaterControl | reading_leaf ]).
Qed.

Lemma reading_V2_loop env fuel w w' :
  holdsReading env w -> V2.loop env fuel w = Some w' -> holdsReading env w'.
Proof.
  apply invariant_V2_loop.
  - apply reading_query.
  - apply reading_millis.
  - reading_leaf.
  - reading_leaf.
  - unfold V2.SaveSettings. preserve_by reading_leaf.
  - apply reading_sampleTemperature.
  - apply reading_heaterControl.
Qed.

Lemma reading_after_setup env (save : M unit) w :
  holdsReading env
    (exec (loadSettings save;;
           let* t := readProbe env in modify (set_currentTemp t)) w).
Proof.
  rewrite exec_bind.
  generalize (exec (loadSettings save) w).
  intros [on st ct pt og rt hon hoff ls ee jn rp nm np nl nr].
  exists np. reflexivity.
Qed.

(** In every state of a run the temperature in hand came from the probe
    and the relay agrees with the flag. *)
Lemma runs_hold_reading env cells w :
  runs_V1 env cells w \/ runs_V2 env cells w ->
  holdsReading env w /\ relayConsistent w.
Proof.
  intros [H | H].
  - induction H as [| w H [IH1 IH2]].
    + split; [apply reading_after_setup | apply relay_V1_setup; reflexivity].
    + split; [apply reading_V1_loop, IH1 | apply relay_V1_loop, IH2].
  - induction H as [| w fuel w' H [IH1 IH2] Hrun].
    + split; [apply reading_after_setup | apply relay_V2_setup; reflexivity].
    + split; [eapply reading_V2_loop | eapply relay_V2_loop]; eassumption.
Qed.

(** In every state of a run whose probe answers on its grid, the setpoint
    is a whole number of degrees and the reading a count of steps of 1/128
    degree: the values the fast-recovery property speaks of are the values
    the sketch has. *)
Lemma runs_hold_sketch_values env cells w :
  byteCells cells -> gridProbe env ->
  runs_V1 env cells w \/ runs_V2 env cells w ->
  exists n k : Z,
    setTemp w = F32.of_Z n /\ - 2 ^ 24 <= n <= 2 ^ 24 /\
    currentTemp w = probeGrid k /\ - 2 ^ 22 < k < 2 ^ 22.
Proof.
  intros Hbytes Hgrid Hrun.
  assert (Hwhole : wholeSetpoint w).
  { destruct Hrun as [H | H].
    - induction H as [| w H IH].
      + apply whole_after_setup;
          auto using setup_first_boot_V1, setup_later_boot_V1.
      + apply whole_V1_loop, IH.
    - induction H as [| w fuel w' H IH Hloop].
      + apply whole_after_setup;
          auto using setup_first_boot_V2, setup_later_boot_V2.
      + eapply whole_V2_loop; eassumption. }
  destruct Hwhole as (n & Hn & Hs).
  destruct (runs_hold_reading env cells w Hrun) as [[i Hi] _].
  destruct (Hgrid i) as (k & Hk & Hp).
  exists n, k. split; [exact Hs |]. split; [exact Hn |].
  split; [congruence |]. change (2 ^ 22) with 4194304. lia.
Qed.

(** With the buttons untouched the button statement changes nothing but
    the count of queries. *)
Lemma V1_buttons_untouched env w :
  untouched env ->
  exec (V1.buttons env) w = set_nRight (S (nRight w)) (set_nLeft (S (S (nLeft w))) w).
Proof.
  intros Hu. destruct w as [on st ct pt og rt hon hoff ls ee jn rp nm np nl nr].
  run. fields. rewrite !Hu. fields. rewrite ?Hu. reflexivity.
Qed.

Lemma V2_buttons_untouched env fuel w :
  untouched env ->
  V2.buttons env fuel w =
  Some (set_nRight (S (nRight w)) (set_nLeft (S (S (nLeft w))) w)).
Proof.
  intros Hu. destruct w as [on st ct pt og rt hon hoff ls ee jn rp nm np nl nr].
  unfold V2.buttons, query. fields. rewrite !Hu. reflexivity.
Qed.

(** Far below the setpoint the heater statement leaves the heater on. *)
Lemma heaterControl_far_below env w :
  F32.leb (F32.sub (setTemp w) (currentTemp w)) tempDifference = false ->
  F32.ltb (currentTemp w) (setTemp w) = true ->
  relayConsistent w ->
  let w' := exec (heaterControl env) w in
  heaterIsOn w' = true /\ relayPin w' = true /\ setTemp w' = setTemp w.
Proof.
  unfold relayConsistent.
  destruct w as [on st ct pt og rt hon hoff ls ee jn rp nm np nl nr].
  fields. intros Hguard Hbelow ->. run. fields.
  rewrite Hguard, Hbelow. fields.
  destruct on; fields; conjs; reflexivity.
Qed.

Lemma rest_far_below env w :
  staysFarBelow env (setTemp w) ->
  holdsReading env w -> relayConsistent w ->
  let w' := exec (sampleTemperature env;; heaterControl env) w in
  heaterIsOn w' = true /\ relayPin w' = true /\ setTemp w' = setTemp w.
Proof.
  intros Hfar Hread Hrelay. cbv zeta.
  rewrite exec_bind.
  pose proof (reading_sampleTemperature env w Hread) as [k Hk].
  pose proof (relay_sampleTemperature env w Hrelay) as Hrelay'.
  assert (Hst : setTemp (exec (sampleTemperature env) w) = setTemp w).
  { clear. revert w.
    assert (H : forall s, preserves (fun w' => setTemp w' = s) (sampleTemperature env)).
    { intros s. unfold sampleTemperature, readTemperatureWithInterval.
      preserve_by ltac:(first
        [ intros [? ? ? ? ? ? ? ? ? ? ? ? ? ? ? ?]; exact (fun H => H) ]). }
    intros w. apply H. reflexivity. }
  destruct (Hfar k) as [Hguard Hbelow].
  destruct (heaterControl_far_below env (exec (sampleTemperature env) w))
    as (H1 & H2 & H3).
  - rewrite Hst, Hk. exact Hguard.
  - rewrite Hst, Hk. exact Hbelow.
  - exact Hrelay'.
  - rewrite H1, H2, H3, Hst. conjs; reflexivity.
Qed.

(** X10. While nobody touches the buttons and every reading of the probe
    stays below the setpoint by more than [tempDifference], each pass of
    [loop] of a run ends with the heater on and the relay high, and with
    the same setpoint: the heater is on without a break, and the 30 s
    cutoff never applies.  Both variants; the Pushbutton board's pass
    returns for every fuel. *)
Theorem heater_on_while_far_below
    (env : Env) (cells : gmap Z Z) (w : World) (fuel : nat) :
  untouched env ->
  staysFarBelow env (setTemp w) ->
  (runs_V1 env cells w ->
   let w' := exec (V1.loop env) w in
   heaterIsOn w' = true /\ relayPin w' = true /\ setTemp w' = setTemp w) /\
  (runs_V2 env cells w ->
   exists w', V2.loop env fuel w = Some w' /\
     heaterIsOn w' = true /\ relayPin w' = true /\ setTemp w' = setTemp w).
Proof.
  intros Hu Hfar. split; intros Hrun.
  - destruct (runs_hold_reading env cells w (or_introl Hrun)) as [Hread Hrelay].
    cbv zeta. unfold V1.loop. rewrite exec_bind, (V1_buttons_untouched env w Hu).
    destruct w as [on st ct pt og rt hon hoff ls ee jn rp nm np nl nr].
    apply (rest_far_below env
             (mkWorld on st ct pt og rt hon hoff ls ee jn rp nm np (S (S nl)) (S nr)));
      assumption.
  - destruct (runs_hold_reading env cells w (or_intror Hrun)) as [Hread Hrelay].
    unfold V2.loop. rewrite (V2_buttons_untouched env fuel w Hu).
    eexists. split; [reflexivity |].
    destruct w as [on st ct pt og rt hon hoff ls ee jn rp nm np nl nr].
    apply (rest_far_below env
             (mkWorld on st ct pt og rt hon hoff ls ee jn rp nm np (S (S nl)) (S nr)));
      assumption.
Qed.

Lemma coldRoom_far_below : staysFarBelow coldRoom f22.
Proof. intros k. split; vm_compute; reflexivity. Qed.

Lemma heater_on_while_far_below_witness :
  let w1 := exec (V1.setup coldRoom) (power_on ∅) in
  let w2 := exec (V2.setup coldRoom) (power_on ∅) in
  heaterIsOn w1 = false /\
  heaterIsOn (exec (V1.loop coldRoom) w1) = true /\
  exists w', V2.loop coldRoom 0 w2 = Some w' /\ heaterIsOn w' = true.
Proof.
  split; [reflexivity |]. split.
  - apply (heater_on_while_far_below coldRoom ∅
             (exec (V1.setup coldRoom) (power_on ∅)) 0).
    + intros b k. reflexivity.
    + exact coldRoom_far_below.
    + apply runs_V1_boot.
  - assert (Hfar : staysFarBelow coldRoom
                     (setTemp (exec (V2.setup coldRoom) (power_on ∅))))
      by (intros k; split; vm_compute; reflexivity).
    destruct (heater_on_while_far_below coldRoom ∅
                (exec (V2.setup coldRoom) (power_on ∅)) 0
                (fun b k => eq_refl) Hfar) as [_ H].
    destruct (H (runs_V2_boot coldRoom ∅)) as (w' & Hrun & Hon & _).
    exists w'. split; assumption.
Defined.

(** ** The dwell interval across a wrap of the millisecond counter *)

(** The difference of two wrapped readings is the time between them, as
    long as that is less than 2^32 ms. *)
Lemma sub32_elapsed a b :
  0 <= a - b < 2 ^ 32 -> sub32 (wrap32 a) (wrap32 b) = a - b.
Proof.
  intros H. unfold sub32, wrap32.
  rewrite <- Zminus_mod. apply Z.mod_small. exact H.
Qed.

(** X11. The dwell interval is measured in true time across a wrap of the
    32-bit millisecond counter.  Let [heaterOffMillis] (heater Off and
    ready to turn on) or [heaterOnMillis] (heater On, reading below the
    setpoint) hold the wrapped value of a clock reading [T0], and let the
    clock now read less than 2^32 ms later.  Inside the guard band the
    heater statement then flips the heater exactly when more than
    [OnOffInterval] has passed since [T0], wherever the counter wrapped. *)
Theorem dwell_measured_across_wrap (env : Env) (w : World) (T0 : Z) :
  F32.leb (F32.sub (setTemp w) (currentTemp w)) tempDifference = true ->
  0 <= clock env (nMillis w) - T0 < 2 ^ 32 ->
  (heaterIsOn w = false /\
   F32.ltb (F32.add (currentTemp w) tempThreshold) (setTemp w) = true /\
   heaterOffMillis w = wrap32 T0)
  \/
  (heaterIsOn w = true /\
   F32.geb (currentTemp w) (setTemp w) = false /\
   heaterOnMillis w = wrap32 T0) ->
  heaterIsOn (exec (heaterControl env) w) =
  xorb (heaterIsOn w) (clock env (nMillis w) - T0 >? OnOffInterval).
Proof.
  destruct w as [on st ct pt og rt hon hoff ls ee jn rp nm np nl nr].
  fields. intros Hguard Helapsed Hcase.
  run. fields. rewrite Hguard. fields.
  destruct Hcase as [(-> & Hlt & ->) | (-> & Hge & ->)].
  - rewrite Hlt. fields. rewrite (sub32_elapsed _ _ Helapsed).
    destruct (clock env nm - T0 >? OnOffInterval); reflexivity.
  - rewrite andb_false_r, Hge. fields. rewrite (sub32_elapsed _ _ Helapsed).
    destruct (clock env nm - T0 >? OnOffInterval); reflexivity.
Qed.

Lemma dwell_measured_across_wrap_witness :
  let w := heaterWorld true f22 f21 (wrap32 (2 ^ 32 - 10000)) 0 in
  let env := frozenAt (2 ^ 32 + 25000) in
  nextMillis env w < heaterOnMillis w /\
  heaterIsOn (exec (heaterControl env) w) = false.
Proof.
  split; [reflexivity |].
  apply (dwell_measured_across_wrap (frozenAt (2 ^ 32 + 25000))
           (heaterWorld true f22 f21 (wrap32 (2 ^ 32 - 10000)) 0)
           (2 ^ 32 - 10000)).
  - reflexivity.
  - vm_compute. split; [discriminate | reflexivity].
  - right. split; [reflexivity |]. split; reflexivity.
Defined.

(** ** At or above the setpoint

    The turn-on test adds [tempThreshold], which is not on the probe's
    grid, so the sum is rounded.  Rounding never takes it below the reading:
    the mantissa is truncated to 24 bits or truncated and incremented. *)

(** The reading plus [tempThreshold], rounded to binary32, is no less than
    the reading. *)
Lemma add_threshold_lower q :
  2 ^ 5 <= Zpos q < 2 ^ 22 ->
  exists mf ef,
    F32.add (canonAt (-7) false q) tempThreshold = S754_finite false mf ef /\
    digits mf = 24 /\ -25 <= ef /\
    Zpos q * 2 ^ 18 <= Zpos mf * 2 ^ (ef + 25).
Proof.
  intros [Hq1 Hq2].
  pose proof (digits_spec q) as [Hd1 Hd2].
  assert (Hd : 6 <= digits q <= 22).
  { split.
    - destruct (Z.ltb_spec (digits q) 6) as [Hlt |]; [| lia].
      assert (2 ^ digits q <= 2 ^ 5) by (apply Z.pow_le_mono_r; lia). lia.
    - destruct (Z.ltb_spec 22 (digits q)) as [Hlt |]; [| lia].
      assert (2 ^ 22 <= 2 ^ (digits q - 1)) by (apply Z.pow_le_mono_r; lia). lia. }
  unfold canonAt, tempThreshold, F32.add, SFadd. cbv zeta.
  replace (Z.min (digits q - 24 + -7) (-25)) with (-25) by lia.
  rewrite (canon_aligned (-7) q (-25) (Z.to_nat (digits q - 6))) by lia.
  replace (Z.to_nat (24 - digits q) + Z.to_nat (digits q - 6))%nat with 18%nat by lia.
  change (fst (shl_align 10066330 (-25) (-25))) with 10066330%positive.
  cbn [cond_Zopp Z.add binary_normalize].
  set (z := (shiftN 18 q + 10066330)%positive).
  assert (Hz : Zpos z = Zpos q * 2 ^ 18 + 10066330).
  { subst z. rewrite Pos2Z.inj_add, Zpos_shiftN. reflexivity. }
  pose proof (digits_spec z) as [Hz1 Hz2].
  assert (Hdz : 24 < digits z <= 41).
  { split.
    - destruct (Z.ltb_spec 24 (digits z)) as [| Hle]; [assumption |].
      assert (2 ^ digits z <= 2 ^ 24) by (apply Z.pow_le_mono_r; lia). lia.
    - destruct (Z.ltb_spec 41 (digits z)) as [Hlt |]; [| lia].
      assert (2 ^ 41 <= 2 ^ (digits z - 1)) by (apply Z.pow_le_mono_r; lia). lia. }
  destruct (round_long false z (-25)) as (mf & ef & Hround & Hmf & Hef & Hlow);
    try lia.
  exists mf, ef. split; [exact Hround |]. split; [exact Hmf |]. split; [exact Hef |].
  replace (ef + 25) with (ef - -25) by lia.
  eapply Z.le_trans; [| exact Hlow].
  set (sh := digits z - 24) in *.
  assert (Hpow : 0 < 2 ^ sh) by (apply Z.pow_pos_nonneg; lia).
  rewrite Hz.
  replace (Zpos q * 2 ^ 18) with (Zpos q * 2 ^ (18 - sh) * 2 ^ sh)
    by (rewrite <- Z.mul_assoc, <- Z.pow_add_r by lia; f_equal; f_equal; lia).
  rewrite Z.div_add_l by lia.
  assert (0 <= 10066330 / 2 ^ sh) by (apply Z.div_pos; lia).
  nia.
Qed.

(** A reading at or above a whole setpoint is not below it by
    [tempThreshold] either, in binary32. *)
Lemma add_threshold_not_below k n :
  32 <= k < 2 ^ 22 -> - 2 ^ 24 < n < 2 ^ 24 -> 128 * n <= k ->
  F32.ltb (F32.add (probeGrid k) tempThreshold) (F32.of_Z n) = false.
Proof.
  intros Hk Hn Hle.
  destruct k as [| q |]; try lia.
  unfold probeGrid. rewrite dyadic_pos by lia.
  destruct (add_threshold_lower q) as (mf & ef & -> & Hmf & Hef & Hlow);
    [change (2 ^ 5) with 32; lia |].
  unfold F32.ltb, SFltb.
  destruct (dyadic_cases 0 n Hn ltac:(lia)) as [[-> E] | (s & p & -> & Hp & E)];
    change (dyadic 0) with F32.of_Z in E; rewrite E; [reflexivity |].
  unfold canonAt. destruct s; [reflexivity |].
  pose proof (digits_bound p Hp) as Hdp. pose proof (digits_pos p) as Hdp1.
  rewrite (compare_normal _ _ _ _ (-25)); try lia.
  2: { rewrite digits_shiftN. lia. }
  rewrite Zpos_shiftN.
  cbn [signed] in Hle.
  replace (Zpos p * 2 ^ Z.of_nat (Z.to_nat (24 - digits p)) * 2 ^ (digits p - 24 + 0 - -25))
    with (Zpos p * 2 ^ 25).
  2: { rewrite <- Z.mul_assoc, <- Z.pow_add_r by lia. f_equal. f_equal. lia. }
  replace (ef - -25) with (ef + 25) by lia.
  destruct (Z.compare_spec (Zpos mf * 2 ^ (ef + 25)) (Zpos p * 2 ^ 25)) as [| Hlt |];
    try reflexivity.
  exfalso. change (2 ^ 18) with 262144 in *. change (2 ^ 25) with 33554432 in *. lia.
Qed.

Lemma geb_dyadic c a b :
  - 2 ^ 24 < a < 2 ^ 24 -> - 2 ^ 24 < b < 2 ^ 24 -> -100 <= c <= 100 ->
  F32.geb (dyadic c a) (dyadic c b) = (b <=? a).
Proof.
  intros Ha Hb Hc. unfold F32.geb. rewrite compare_dyadic by assumption.
  unfold Z.leb. rewrite (Z.compare_antisym a b).
  destruct (a ?= b); reflexivity.
Qed.

(** At or above the setpoint the heater statement leaves the heater off. *)
Lemma heaterControl_at_setpoint env w n k :
  setTemp w = F32.of_Z n -> currentTemp w = probeGrid k ->
  -65536 <= n -> 32 <= k < 2 ^ 22 -> 128 * n <= k ->
  relayConsistent w ->
  let w' := exec (heaterControl env) w in
  heaterIsOn w' = false /\ relayPin w' = false.
Proof.
  unfold relayConsistent.
  destruct w as [on st ct pt og rt hon hoff ls ee jn rp nm np nl nr].
  fields. intros -> -> Hn Hk Hle ->.
  assert (Hguard : F32.leb (F32.sub (F32.of_Z n) (probeGrid k)) tempDifference = true).
  { unfold tempDifference.
    rewrite (of_Z_probeGrid n), (of_Z_probeGrid 2) by lia.
    unfold probeGrid. rewrite sub_dyadic, leb_dyadic by lia.
    apply Z.leb_le. lia. }
  assert (Hge : F32.geb (probeGrid k) (F32.of_Z n) = true).
  { rewrite (of_Z_probeGrid n) by lia.
    unfold probeGrid. rewrite geb_dyadic by lia. apply Z.leb_le. lia. }
  run. fields.
  rewrite Hguard, add_threshold_not_below by lia. fields.
  destruct on; fields.
  - rewrite Hge. fields. split; reflexivity.
  - split; reflexivity.
Qed.

Lemma heaterControl_keeps_temps env w :
  setTemp (exec (heaterControl env) w) = setTemp w /\
  currentTemp (exec (heaterControl env) w) = currentTemp w.
Proof.
  assert (H : preserves
                (fun w' => setTemp w' = setTemp w /\ currentTemp w' = currentTemp w)
                (heaterControl env)).
  { unfold heaterControl, turnHeaterOn, turnHeaterOff, digitalWrite_relay.
    preserve_by ltac:(first
      [ intros [? ? ? ? ? ? ? ? ? ? ? ? ? ? ? ?]; exact (fun H => H) ]). }
  apply H. split; reflexivity.
Qed.

Lemma relay_V1_buttons env : preserves relayConsistent (V1.buttons env).
Proof.
  unfold V1.buttons.
  preserve_by ltac:(first [ apply relay_V1_SaveSettings | relay_leaf ]).
Qed.

Lemma relay_V2_buttons env fuel w w' :
  relayConsistent w -> V2.buttons env fuel w = Some w' -> relayConsistent w'.
Proof.
  apply invariant_V2_buttons.
  - apply relay_query.
  - apply relay_millis.
  - relay_leaf.
  - relay_leaf.
  - apply relay_V2_SaveSettings.
Qed.

(** X12. A pass of [loop] that ends with the reading at or above the
    setpoint ends with the heater off and the relay low, whatever the dwell
    timers say.  The setpoint is a whole number [n] of degrees from -65536
    up, the reading is [k] steps of 1/128 degree on the probe's grid with
    [32 <= k < 2^22] (0.25 to 32768 degrees), and the relay agreed with
    the flag when the pass began.  Both variants. *)
Theorem pass_ends_off_at_setpoint (env : Env) (w w' : World) (n k : Z) :
  w' = exec (V1.loop env) w \/ (exists fuel, V2.loop env fuel w = Some w') ->
  relayConsistent w ->
  setTemp w' = F32.of_Z n -> currentTemp w' = probeGrid k ->
  -65536 <= n -> 32 <= k < 2 ^ 22 -> 128 * n <= k ->
  heaterIsOn w' = false /\ relayPin w' = false.
Proof.
  intros Hpass Hrelay Hs Hc Hn Hk Hle.
  assert (Hw' : exists w2, relayConsistent w2 /\ w' = exec (heaterControl env) w2).
  { destruct Hpass as [-> | [fuel Hrun]].
    - exists (exec (sampleTemperature env) (exec (V1.buttons env) w)). split.
      + apply relay_sampleTemperature, relay_V1_buttons, Hrelay.
      + unfold V1.loop. rewrite !exec_bind. reflexivity.
    - unfold V2.loop in Hrun.
      destruct (V2.buttons env fuel w) as [w1 |] eqn:Hb; [| discriminate].
      injection Hrun as <-.
      exists (exec (sampleTemperature env) w1). split.
      + apply relay_sampleTemperature. eapply relay_V2_buttons; eassumption.
      + rewrite exec_bind. reflexivity. }
  destruct Hw' as (w2 & Hrelay2 & ->).
  destruct (heaterControl_keeps_temps env w2) as [Hs2 Hc2].
  rewrite Hs2 in Hs. rewrite Hc2 in Hc.
  exact (heaterControl_at_setpoint env w2 n k Hs Hc Hn Hk Hle Hrelay2).
Qed.

Lemma pass_ends_off_at_setpoint_witness :
  let w := heaterWorld true f22 f22_5 0 0 in
  let w' := exec (V1.loop (frozenAt 1000)) w in
  heaterIsOn w = true /\
  sub32 (nextMillis (frozenAt 1000) w) (heaterOnMillis w) <= OnOffInterval /\
  heaterIsOn w' = false /\ relayPin w' = false.
Proof.
  split; [reflexivity |]. split; [vm_compute; discriminate |].
  apply (pass_ends_off_at_setpoint (frozenAt 1000)
           (heaterWorld true f22 f22_5 0 0)
           (exec (V1.loop (frozenAt 1000)) (heaterWorld true f22 f22_5 0 0))
           22 2880).
  - left. reflexivity.
  - reflexivity.
  - vm_compute. reflexivity.
  - vm_compute. reflexivity.
  - lia.
  - lia.
  - lia.
Defined.
